(** * goldmark-markdown: the markdown node renderer (renderer.go)

    A shallow embedding of the renderer that turns a goldmark document tree
    back into markdown text, and the properties of its heading, code block,
    thematic break, separator and trailing-newline handling.

    Go [int] values (heading levels, lengths, indices) are modelled as [Z].
    The renderer only compares them and subtracts one from a non-zero length,
    so no 64-bit wrap-around can occur and none is written out.  A Go run-time
    panic (index or slice out of range, negative repeat count, failed type
    assertion) is the [Panic] outcome of the [Res] type. *)

From Stdlib Require Import List ZArith Lia Bool String.
From Stdlib.Strings Require Import Byte.
Import ListNotations.
Local Open Scope Z_scope.

(** ** Byte strings and the Go run-time operations the renderer uses *)

Definition bytes := list byte.

Definition str (s : string) : bytes := list_byte_of_string s.

Definition NL : byte := x0a.
Definition SP : byte := x20.

Definition len (b : bytes) : Z := Z.of_nat (List.length b).

Inductive panic : Type :=
| IndexOutOfRange
| SliceBoundsOutOfRange
| NegativeCount
| TypeAssertion.

Inductive Res (A : Type) : Type :=
| Ok (a : A)
| Panic (p : panic).

Arguments Ok {A} a.
Arguments Panic {A} p.

(** [b[i]] *)
Definition index (b : bytes) (i : Z) : Res byte :=
  if (0 <=? i) && (i <? len b) then
    match nth_error b (Z.to_nat i) with
    | Some x => Ok x
    | None => Panic IndexOutOfRange
    end
  else Panic IndexOutOfRange.

(** [b[lo:hi]]; the capacity of the buffer is taken to be its length. *)
Definition slice (b : bytes) (lo hi : Z) : Res bytes :=
  if (0 <=? lo) && (lo <=? hi) && (hi <=? len b) then
    Ok (firstn (Z.to_nat (hi - lo)) (skipn (Z.to_nat lo) b))
  else Panic SliceBoundsOutOfRange.

(** [strings.Repeat(s, count)] and [bytes.Repeat]: panic on a negative count. *)
Definition Repeat (s : bytes) (count : Z) : Res bytes :=
  if count <? 0 then Panic NegativeCount
  else Ok (List.concat (repeat s (Z.to_nat count))).

(** Indexing an array literal of strings: [[...]string{...}[i]]. *)
Definition lookup (arr : list bytes) (i : Z) : Res bytes :=
  if (0 <=? i) && (i <? Z.of_nat (List.length arr)) then
    match nth_error arr (Z.to_nat i) with
    | Some x => Ok x
    | None => Panic IndexOutOfRange
    end
  else Panic IndexOutOfRange.

Definition byte_eqb (a b : byte) : bool := Byte.eqb a b.

(** ** goldmark's text.Segment *)

Record Segment : Type := mkSegment {
  Start : Z;
  Stop : Z;
  Padding : Z
}.

(** [Segment.Len] *)
Definition Segment_Len (t : Segment) : Z := Stop t - Start t + Padding t.

(** [Segment.Value(buffer)]: the bytes of the span, after [Padding] spaces. *)
Definition Segment_Value (t : Segment) (buffer : bytes) : Res bytes :=
  if Padding t =? 0 then slice buffer (Start t) (Stop t)
  else
    if Padding t + Stop t - Start t + 1 <? 0 then Panic NegativeCount
    else
      match Repeat [SP] (Padding t) with
      | Panic p => Panic p
      | Ok pad =>
          match slice buffer (Start t) (Stop t) with
          | Panic p => Panic p
          | Ok body => Ok (pad ++ body)
          end
      end.

(** ** The document tree *)

Record Heading : Type := mkHeading {
  Level : Z;
  Heading_Lines : list Segment
}.

(** The nodes the renderer has no function for: the block and inline nodes
    of goldmark that [RegisterFuncs] leaves as TODO, and the nodes of
    extensions. *)
Inductive OtherNode : Type :=
| TextBlockNode | BlockquoteNode | ListNode | ListItemNode
| StringNode | CodeSpanNode | EmphasisNode | LinkNode | ImageNode
| AutoLinkNode | RawHTMLNode
| ExtensionNode (i : nat).

Inductive NodeData : Type :=
| DocumentData
| HeadingData (h : Heading)
| ParagraphData
| ThematicBreakData
| CodeBlockData (lines : list Segment)
| FencedCodeBlockData (Info : option Segment) (lines : list Segment)
| HTMLBlockData (lines : list Segment) (ClosureLine : Segment)
| TextData (seg : Segment) (softLineBreak : bool)
| OtherData (other : OtherNode).

#[local] Unset Elimination Schemes.
Inductive Node : Type :=
| mkNode (data : NodeData) (children : list Node).
#[local] Set Elimination Schemes.

Definition data (n : Node) : NodeData := match n with mkNode d _ => d end.
Definition children (n : Node) : list Node := match n with mkNode _ cs => cs end.

(** goldmark's node kinds.  A kind is an integer handed out by
    [ast.NewNodeKind] in the order the kinds are declared: the block kinds,
    then the inline kinds, then the kinds of extensions. *)
Inductive NodeKind : Type :=
| KindDocument | KindTextBlock | KindParagraph | KindHeading
| KindThematicBreak | KindCodeBlock | KindFencedCodeBlock | KindBlockquote
| KindList | KindListItem | KindHTMLBlock
| KindText | KindString | KindCodeSpan | KindEmphasis | KindLink | KindImage
| KindAutoLink | KindRawHTML
| KindExtension (i : nat).

Definition kindIndex (k : NodeKind) : Z :=
  match k with
  | KindDocument => 1
  | KindTextBlock => 2
  | KindParagraph => 3
  | KindHeading => 4
  | KindThematicBreak => 5
  | KindCodeBlock => 6
  | KindFencedCodeBlock => 7
  | KindBlockquote => 8
  | KindList => 9
  | KindListItem => 10
  | KindHTMLBlock => 11
  | KindText => 12
  | KindString => 13
  | KindCodeSpan => 14
  | KindEmphasis => 15
  | KindLink => 16
  | KindImage => 17
  | KindAutoLink => 18
  | KindRawHTML => 19
  | KindExtension i => 20 + Z.of_nat i
  end.

Definition OtherNode_Kind (o : OtherNode) : NodeKind :=
  match o with
  | TextBlockNode => KindTextBlock
  | BlockquoteNode => KindBlockquote
  | ListNode => KindList
  | ListItemNode => KindListItem
  | StringNode => KindString
  | CodeSpanNode => KindCodeSpan
  | EmphasisNode => KindEmphasis
  | LinkNode => KindLink
  | ImageNode => KindImage
  | AutoLinkNode => KindAutoLink
  | RawHTMLNode => KindRawHTML
  | ExtensionNode i => KindExtension i
  end.

Definition Kind (n : Node) : NodeKind :=
  match data n with
  | DocumentData => KindDocument
  | HeadingData _ => KindHeading
  | ParagraphData => KindParagraph
  | ThematicBreakData => KindThematicBreak
  | CodeBlockData _ => KindCodeBlock
  | FencedCodeBlockData _ _ => KindFencedCodeBlock
  | HTMLBlockData _ _ => KindHTMLBlock
  | TextData _ _ => KindText
  | OtherData o => OtherNode_Kind o
  end.

(** The kinds [RegisterFuncs] registers a function for, in the order of its
    calls, and the highest of them: goldmark's [Register] keeps it as
    [maxKind] and [Render] sizes its table of functions by it. *)
Definition registered : list NodeKind :=
  [KindDocument; KindHeading; KindCodeBlock; KindParagraph; KindThematicBreak;
   KindFencedCodeBlock; KindHTMLBlock; KindText].

Definition maxKind : Z := fold_right Z.max 0 (map kindIndex registered).

(** [node.HasChildren()] *)
Definition HasChildren (n : Node) : bool :=
  match children n with [] => false | _ :: _ => true end.

(** [FencedCodeBlock.Language(source)]: the info string up to its first
    space, [None] (a nil slice) when the block has no info string. *)
Fixpoint upToSpace (info : bytes) : bytes :=
  match info with
  | [] => []
  | c :: rest => if byte_eqb c SP then [] else c :: upToSpace rest
  end.

Definition Language (Info : option Segment) (source : bytes) : Res (option bytes) :=
  match Info with
  | None => Ok None
  | Some seg =>
      match Segment_Value seg source with
      | Ok info => Ok (Some (upToSpace info))
      | Panic p => Panic p
      end
  end.

(** [HTMLBlock.HasClosure()] *)
Definition HasClosure (ClosureLine : Segment) : bool := 0 <=? Start ClosureLine.

(** ** Style configuration *)

(** Modelled from the spec: the [HeadingStyle] type, its constants and
    [IsSetext] are declared in the options file of the package, outside
    renderer.go; the spec lists the ATX, ATX with closing hashes and Setext
    styles and the full-width Setext underline. *)
Inductive HeadingStyleT : Type :=
| HeadingStyleATX
| HeadingStyleATXSurround
| HeadingStyleSetext
| HeadingStyleFullWidthSetext.

Definition HeadingStyle_eqb (a b : HeadingStyleT) : bool :=
  match a, b with
  | HeadingStyleATX, HeadingStyleATX
  | HeadingStyleATXSurround, HeadingStyleATXSurround
  | HeadingStyleSetext, HeadingStyleSetext
  | HeadingStyleFullWidthSetext, HeadingStyleFullWidthSetext => true
  | _, _ => false
  end.

(** Modelled from the spec: [HeadingStyle.IsSetext] of the options file; both
    Setext styles ask for the underline form. *)
Definition IsSetext (s : HeadingStyleT) : bool :=
  match s with
  | HeadingStyleSetext | HeadingStyleFullWidthSetext => true
  | _ => false
  end.

(** Modelled from the spec: the constant [ThematicBreakLengthMinimum] of the
    options file; the spec fixes the minimum at 3. *)
Definition ThematicBreakLengthMinimum : Z := 3.

(** The [Config] record embedded in [Renderer].  The thematic break style is
    the integer the renderer indexes its glyph table with; the indent style
    is kept as the bytes its [bytes()] method returns. *)
Record Config : Type := mkConfig {
  HeadingStyle : HeadingStyleT;
  ThematicBreakStyle : Z;
  ThematicBreakLength : Z;
  IndentStyle : bytes
}.

(** ** The output sink *)

Definition error := string.

(** goldmark's [util.BufWriter], reduced to the two methods the render pass
    calls: [Write] returns the number of bytes taken and an optional error,
    [Flush] an optional error. *)
Class BufWriter (W : Type) : Type := {
  Write : W -> bytes -> W * (Z * option error);
  Flush : W -> W * option error
}.

(** [defaultWriter]: what the last [Writer.Write] was given and how many
    bytes of it the sink took. *)
Record defaultWriter : Type := mkDefaultWriter {
  lastWriteBytes : bytes;
  lastWriteLen : Z
}.

Definition newDefaultWriter : defaultWriter := mkDefaultWriter [] 0.

Inductive WalkStatus : Type :=
| WalkStop
| WalkSkipChildren
| WalkContinue.

Definition WalkStatus_eqb (a b : WalkStatus) : bool :=
  match a, b with
  | WalkStop, WalkStop
  | WalkSkipChildren, WalkSkipChildren
  | WalkContinue, WalkContinue => true
  | _, _ => false
  end.

Definition isSome {A} (o : option A) : bool :=
  match o with Some _ => true | None => false end.

(** The two results of a node renderer function. *)
Definition HandlerResult : Type := (WalkStatus * option error)%type.

Section Render.

Context {W : Type} {BW : BufWriter W}.

(** The state a render pass threads through: the buffered writer [w] and the
    renderer's [writer] field. *)
Record RState : Type := mkRState {
  w : W;
  writer : defaultWriter
}.

(** State and panic monad of the render pass. *)
Definition M (A : Type) : Type := RState -> Res (A * RState).

Definition ret {A} (a : A) : M A := fun st => Ok (a, st).

Definition bind {A B} (m : M A) (k : A -> M B) : M B :=
  fun st =>
    match m st with
    | Ok (a, st') => k a st'
    | Panic p => Panic p
    end.

Definition lift {A} (r : Res A) : M A :=
  fun st => match r with Ok a => Ok (a, st) | Panic p => Panic p end.

Notation "x <- m ;; k" := (bind m (fun x => k))
  (at level 100, m at next level, right associativity).
Notation "m ;;; k" := (bind m (fun _ => k))
  (at level 100, right associativity).

(** [defaultWriter.Write]: remembers the bytes and the count the sink
    returned; the sink's error is dropped. *)
Definition defaultWriter_Write (source : bytes) : M unit :=
  fun st =>
    let '(w', (n, _)) := Write (w st) source in
    Ok (tt, mkRState w' (mkDefaultWriter source n)).

(** [defaultWriter.LastWriteBytes] *)
Definition LastWriteBytes : M (bytes * Z) :=
  fun st => Ok ((lastWriteBytes (writer st), lastWriteLen (writer st)), st).

(** [fmt.Fprint(w, s)] and [fmt.Fprintf(w, format, ...)] once formatted: one
    write to the buffered writer itself, result ignored. *)
Definition Fprint (s : bytes) : M unit :=
  fun st =>
    let '(w', _) := Write (w st) s in
    Ok (tt, mkRState w' (writer st)).

(** A [for i := 0; i < lines.Len(); i++] loop over the lines of a node. *)
Fixpoint forLines (lines : list Segment) (body : Segment -> M unit) : M unit :=
  match lines with
  | [] => ret tt
  | line :: rest => body line ;;; forLines rest body
  end.

Variable r : Config.

Definition renderBlockSeparator (source : bytes) (node : Node)
    (NextSibling : option Node) : M unit :=
  if isSome NextSibling then defaultWriter_Write [NL; NL] else ret tt.

Definition renderDocument (source : bytes) (node : Node)
    (NextSibling : option Node) (entering : bool) : M HandlerResult :=
  (if negb entering then
     bl <- LastWriteBytes ;;
     let '(b, l) := bl in
     missing <- (if l =? 0 then ret true
                 else c <- lift (index b (l - 1)) ;; ret (negb (byte_eqb c NL))) ;;
     if missing : bool then defaultWriter_Write [NL] else ret tt
   else ret tt) ;;;
  ret (WalkContinue, None).

Definition renderATXHeading (source : bytes) (node : Node)
    (NextSibling : option Node) (h : Heading) (entering : bool) : M HandlerResult :=
  (if entering then
     atxHeadingChars <- lift (Repeat (str "#") (Level h)) ;;
     Fprint atxHeadingChars ;;;
     if HasChildren node then Fprint (str " ") else ret tt
   else
     (if HeadingStyle_eqb (HeadingStyle r) HeadingStyleATXSurround then
        atxHeadingChars <- lift (Repeat (str "#") (Level h)) ;;
        Fprint (str " " ++ atxHeadingChars)
      else ret tt) ;;;
     renderBlockSeparator source node NextSibling) ;;;
  ret (WalkContinue, None).

(** The loop of [renderSetextHeading] that widens the underline. *)
Fixpoint widen (lines : list Segment) (underlineWidth : Z) : Z :=
  match lines with
  | [] => underlineWidth
  | line :: rest =>
      let lineWidth := Segment_Len line in
      widen rest (if lineWidth >? underlineWidth then lineWidth else underlineWidth)
  end.

Definition renderSetextHeading (source : bytes) (node : Node)
    (NextSibling : option Node) (h : Heading) (entering : bool) : M HandlerResult :=
  if entering then ret (WalkContinue, None)
  else
    underlineChar <- lift (lookup [[]; str "="; str "-"] (Level h)) ;;
    let underlineWidth :=
      if HeadingStyle_eqb (HeadingStyle r) HeadingStyleFullWidthSetext
      then widen (Heading_Lines h) 3 else 3 in
    underline <- lift (Repeat underlineChar underlineWidth) ;;
    Fprint ([NL] ++ underline) ;;;
    renderBlockSeparator source node NextSibling ;;;
    ret (WalkContinue, None).

Definition renderHeading (source : bytes) (node : Node)
    (NextSibling : option Node) (entering : bool) : M HandlerResult :=
  match data node with
  | HeadingData n =>
      if negb (HasChildren node) || (Level n >? 2) then
        renderATXHeading source node NextSibling n entering
      else if Z.of_nat (List.length (Heading_Lines n)) >? 1 then
        renderSetextHeading source node NextSibling n entering
      else if IsSetext (HeadingStyle r) then
        renderSetextHeading source node NextSibling n entering
      else renderATXHeading source node NextSibling n entering
  | _ => lift (Panic TypeAssertion)
  end.

Definition renderParagraph (source : bytes) (node : Node)
    (NextSibling : option Node) (entering : bool) : M HandlerResult :=
  (if negb entering then renderBlockSeparator source node NextSibling
   else ret tt) ;;;
  ret (WalkContinue, None).

Definition renderText (source : bytes) (node : Node)
    (NextSibling : option Node) (entering : bool) : M HandlerResult :=
  match data node with
  | TextData seg softLineBreak =>
      (if entering then
         text <- lift (Segment_Value seg source) ;;
         defaultWriter_Write text ;;;
         if softLineBreak then defaultWriter_Write [NL] else ret tt
       else ret tt) ;;;
      ret (WalkContinue, None)
  | _ => lift (Panic TypeAssertion)
  end.

Definition renderThematicBreak (source : bytes) (node : Node)
    (NextSibling : option Node) (entering : bool) : M HandlerResult :=
  (if entering then
     breakChar <- lift (lookup [str "-"; str "*"; str "_"] (ThematicBreakStyle r)) ;;
     let breakLen :=
       if ThematicBreakLength r <? ThematicBreakLengthMinimum
       then ThematicBreakLengthMinimum else ThematicBreakLength r in
     thematicBreak <- lift (Repeat breakChar breakLen) ;;
     defaultWriter_Write thematicBreak
   else renderBlockSeparator source node NextSibling) ;;;
  ret (WalkContinue, None).

Definition renderCodeBlock (source : bytes) (node : Node)
    (NextSibling : option Node) (entering : bool) : M HandlerResult :=
  match data node with
  | CodeBlockData lines =>
      (if entering then
         forLines lines (fun line =>
           defaultWriter_Write (IndentStyle r) ;;;
           v <- lift (Segment_Value line source) ;;
           defaultWriter_Write v)
       else renderBlockSeparator source node NextSibling) ;;;
      ret (WalkContinue, None)
  | _ => lift (Panic TypeAssertion)
  end.

Definition renderFencedCodeBlock (source : bytes) (node : Node)
    (NextSibling : option Node) (entering : bool) : M HandlerResult :=
  match data node with
  | FencedCodeBlockData Info lines =>
      defaultWriter_Write (str "```") ;;;
      (if entering then
         lang <- lift (Language Info source) ;;
         match lang with
         | Some l => defaultWriter_Write l
         | None => ret tt
         end ;;;
         defaultWriter_Write [NL] ;;;
         forLines lines (fun line =>
           v <- lift (Segment_Value line source) ;;
           defaultWriter_Write v)
       else renderBlockSeparator source node NextSibling) ;;;
      ret (WalkContinue, None)
  | _ => lift (Panic TypeAssertion)
  end.

Definition renderHTMLBlock (source : bytes) (node : Node)
    (NextSibling : option Node) (entering : bool) : M HandlerResult :=
  match data node with
  | HTMLBlockData lines ClosureLine =>
      (if entering then
         forLines lines (fun line =>
           v <- lift (Segment_Value line source) ;;
           defaultWriter_Write v)
       else
         (if HasClosure ClosureLine then
            v <- lift (Segment_Value ClosureLine source) ;;
            defaultWriter_Write v
          else ret tt) ;;;
         renderBlockSeparator source node NextSibling) ;;;
      ret (WalkContinue, None)
  | _ => lift (Panic TypeAssertion)
  end.

(** [RegisterFuncs]: the renderer function registered for each node kind. *)
Definition NodeRendererFunc : Type :=
  bytes -> Node -> option Node -> bool -> M HandlerResult.

Definition RegisterFuncs (k : NodeKind) : option NodeRendererFunc :=
  match k with
  | KindDocument => Some renderDocument
  | KindHeading => Some renderHeading
  | KindCodeBlock => Some renderCodeBlock
  | KindParagraph => Some renderParagraph
  | KindThematicBreak => Some renderThematicBreak
  | KindFencedCodeBlock => Some renderFencedCodeBlock
  | KindHTMLBlock => Some renderHTMLBlock
  | KindText => Some renderText
  | _ => None
  end.

(** [r.nodeRendererFuncs[kind]]: the table holds [maxKind + 1] entries, nil
    where no function is registered; a kind past its end is an index out of
    range. *)
Definition nodeRendererFuncs (k : NodeKind) : Res (option NodeRendererFunc) :=
  if (0 <=? kindIndex k) && (kindIndex k <=? maxKind) then Ok (RegisterFuncs k)
  else Panic IndexOutOfRange.

(** The walker goldmark's [Render] passes to [ast.Walk]: it looks the kind
    up in the table and calls the function found there, if any. *)
Definition walker (source : bytes) (n : Node) (NextSibling : option Node)
    (entering : bool) : M HandlerResult :=
  f <- lift (nodeRendererFuncs (Kind n)) ;;
  match f with
  | Some f => f source n NextSibling entering
  | None => ret (WalkContinue, None)
  end.

Definition stops (res : HandlerResult) : bool :=
  isSome (snd res) || WalkStatus_eqb (fst res) WalkStop.

(** goldmark's [walkHelper]: enter, visit the children from first to last,
    leave; an error or [WalkStop] ends the walk. *)
Fixpoint walkHelper (source : bytes) (n : Node) (NextSibling : option Node)
    {struct n} : M HandlerResult :=
  match n with
  | mkNode _ cs =>
      res <- walker source n NextSibling true ;;
      if stops res then ret res
      else
        stopped <-
          (if negb (WalkStatus_eqb (fst res) WalkSkipChildren) then
             (fix loop (cs : list Node) : M (option HandlerResult) :=
                match cs with
                | [] => ret None
                | c :: rest =>
                    st <- walkHelper source c (hd_error rest) ;;
                    if stops st then ret (Some (WalkStop, snd st))
                    else loop rest
                end) cs
           else ret None) ;;
        match stopped with
        | Some out => ret out
        | None =>
            res' <- walker source n NextSibling false ;;
            if stops res' then ret (WalkStop, snd res')
            else ret (WalkContinue, None)
        end
  end.

(** The child loop of [walkHelper] on its own. *)
Definition walkChildren (source : bytes) : list Node -> M (option HandlerResult) :=
  fix loop (cs : list Node) : M (option HandlerResult) :=
    match cs with
    | [] => ret None
    | c :: rest =>
        st <- walkHelper source c (hd_error rest) ;;
        if stops st then ret (Some (WalkStop, snd st))
        else loop rest
    end.

(** goldmark's [Render]: walk the tree from its root, then flush; the
    outcome is the walk's error, else the flush's. *)
Definition Render (source : bytes) (n : Node) : M (option error) :=
  res <- walkHelper source n None ;;
  match snd res with
  | Some e => ret (Some e)
  | None =>
      fun st =>
        let '(w', e) := Flush (w st) in
        Ok (e, mkRState w' (writer st))
  end.

End Render.

Arguments RState W : clear implicits.
Arguments M W A : clear implicits.

(** ** Two sinks *)

(** A buffered writer over an in-memory buffer: every write is taken whole
    and nothing ever fails. *)
#[export] Instance Buffer : BufWriter bytes := {|
  Write buf p := (buf ++ p, (len p, None));
  Flush buf := (buf, None)
|}.

(** A buffered writer over a device with room for [room] more bytes.  As
    with Go's [bufio.Writer] the first error sticks: a write that does not
    fit is taken as far as it fits and reports an error; from then on every
    write takes nothing and reports that error again, and so does [Flush].
    [calls] counts the writes attempted. *)
Record Quota : Type := mkQuota {
  taken : bytes;
  room : Z;
  calls : Z;
  failure : option error
}.

Definition ErrShortWrite : error := "short write"%string.

Definition Quota_Write (q : Quota) (p : bytes) : Quota * (Z * option error) :=
  match failure q with
  | Some e => (mkQuota (taken q) (room q) (calls q + 1) (Some e), (0, Some e))
  | None =>
      if len p <=? room q then
        (mkQuota (taken q ++ p) (room q - len p) (calls q + 1) None, (len p, None))
      else
        (mkQuota (taken q ++ firstn (Z.to_nat (room q)) p) 0 (calls q + 1)
           (Some ErrShortWrite),
         (Z.max 0 (room q), Some ErrShortWrite))
  end.

#[export] Instance QuotaWriter : BufWriter Quota := {|
  Write := Quota_Write;
  Flush q := (q, failure q)
|}.

(** The state of a fresh renderer writing to [w]. *)
Definition fresh {W} (w : W) : RState W := mkRState w newDefaultWriter.

(** The bytes an in-memory render produced, when it did not panic. *)
Definition output {A} (res : Res (A * RState bytes)) : option bytes :=
  match res with
  | Ok (_, st) => Some (w st)
  | Panic _ => None
  end.

Definition defaultConfig : Config :=
  mkConfig HeadingStyleATX 0 3 (str "    ").

Definition seg (a b : Z) : Segment := mkSegment a b 0.
Definition text (a b : Z) : Node := mkNode (TextData (seg a b) false) [].

(** ** Definitions used to state the properties *)

(** The two forms a heading can take. *)
Inductive HeadingForm : Type := ATXForm | SetextForm.

(** The resolution order as the specification words it: an empty heading or
    a level above 2 is ATX; else a heading of more than one source line is
    Setext; else the configured style decides. *)
Definition resolveHeadingForm (hasChildren : bool) (level lineCount : Z)
    (style : HeadingStyleT) : HeadingForm :=
  if negb hasChildren then ATXForm
  else if level >? 2 then ATXForm
  else if lineCount >? 1 then SetextForm
  else if IsSetext style then SetextForm
  else ATXForm.

(** The hash run of an ATX heading and the separator after a block. *)
Definition hashes (level : Z) : bytes := repeat x23 (Z.to_nat level).

Definition separator (NextSibling : option Node) : bytes :=
  if isSome NextSibling then [NL; NL] else [].

(** The Setext underline as the specification words it: [=] for level 1,
    [-] for level 2, three characters long unless the full-width style asks
    for the longest source line, and then never shorter than three. *)
Definition underlineGlyph (level : Z) : byte := if level =? 1 then x3d else x2d.

Definition longestLine (lines : list Segment) : Z :=
  fold_right Z.max 3 (map Segment_Len lines).

Definition underlineWidthOf (style : HeadingStyleT) (lines : list Segment) : Z :=
  match style with
  | HeadingStyleFullWidthSetext => longestLine lines
  | _ => 3
  end.

(** The glyph of a thematic break by style index. *)
Definition breakGlyph (style : Z) : byte :=
  if style =? 0 then x2d else if style =? 1 then x2a else x5f.

(** The values of a list of line segments, in order. *)
Fixpoint Values (lines : list Segment) (source : bytes) : Res (list bytes) :=
  match lines with
  | [] => Ok []
  | line :: rest =>
      match Segment_Value line source with
      | Panic p => Panic p
      | Ok v =>
          match Values rest source with
          | Panic p => Panic p
          | Ok vs => Ok (v :: vs)
          end
      end
  end.

(** The block kinds the renderer has a function for. *)
Definition isBlock (n : Node) : bool :=
  match Kind n with
  | KindHeading | KindParagraph | KindThematicBreak
  | KindCodeBlock | KindFencedCodeBlock | KindHTMLBlock => true
  | _ => false
  end.

(** Run [k] on the state a result carries. *)
Definition afterwards {W A} (res : Res (A * RState W)) (k : M W unit) :
    Res (A * RState W) :=
  match res with
  | Ok (a, st) =>
      match k st with
      | Ok (_, st') => Ok (a, st')
      | Panic p => Panic p
      end
  | Panic p => Panic p
  end.

(** How many newline bytes the output ends in. *)
Fixpoint leadingNewlines (b : bytes) : nat :=
  match b with
  | c :: rest => if byte_eqb c NL then S (leadingNewlines rest) else O
  | [] => O
  end.

Definition trailingNewlines (out : bytes) : nat := leadingNewlines (rev out).

Definition endsWithNewline (out : bytes) : Prop := exists pre, out = pre ++ [NL].

(** The last write recorded is the tail of the output and was taken whole. *)
Definition synced (st : RState bytes) : Prop :=
  lastWriteLen (writer st) = len (lastWriteBytes (writer st))
  /\ exists pre, w st = pre ++ lastWriteBytes (writer st).

Definition isOk {A} (x : Res A) : bool :=
  match x with Ok _ => true | Panic _ => false end.

(** Every segment a renderer function reads lies within the source, a
    thematic break finds its glyph, and the kind of a node without a
    renderer function lies within the table of functions. *)
Definition dataReadable (r : Config) (source : bytes) (d : NodeData) : bool :=
  match d with
  | TextData seg _ => isOk (Segment_Value seg source)
  | CodeBlockData lines => isOk (Values lines source)
  | FencedCodeBlockData Info lines =>
      isOk (Language Info source) && isOk (Values lines source)
  | HTMLBlockData lines ClosureLine =>
      isOk (Values lines source)
      && (negb (HasClosure ClosureLine) || isOk (Segment_Value ClosureLine source))
  | ThematicBreakData => (0 <=? ThematicBreakStyle r) && (ThematicBreakStyle r <? 3)
  | HeadingData h => 0 <=? Level h
  | OtherData o => kindIndex (OtherNode_Kind o) <=? maxKind
  | DocumentData | ParagraphData => true
  end.

Fixpoint readable (r : Config) (source : bytes) (n : Node) : bool :=
  match n with
  | mkNode d cs => dataReadable r source d && forallb (readable r source) cs
  end.

Fixpoint noHeading (n : Node) : bool :=
  match n with
  | mkNode d cs =>
      match d with HeadingData _ => false | _ => true end && forallb noHeading cs
  end.

(** Induction on document trees, the children first. *)
Fixpoint Node_ind (P : Node -> Prop)
    (step : forall d cs, Forall P cs -> P (mkNode d cs)) (n : Node) : P n :=
  match n with
  | mkNode d cs =>
      step d cs
        ((fix all (l : list Node) : Forall P l :=
            match l with
            | [] => Forall_nil P
            | c :: rest => Forall_cons c (Node_ind P step c) (all rest)
            end) cs)
  end.

(** ** Definitions used for the further properties *)

(** A sink honours the contract of [io.Writer]: the count it returns lies
    between 0 and the length of what it was given. *)
Definition lawful {W} (BW : BufWriter W) : Prop :=
  forall (w0 : W) (p : bytes), 0 <= fst (snd (Write w0 p)) <= len p.

(** The length recorded for the last write indexes within its bytes. *)
Definition bounded {W} (st : RState W) : Prop :=
  0 <= lastWriteLen (writer st) <= len (lastWriteBytes (writer st)).

(** The lines of an indented code block as they are written. *)
Definition indented (indent : bytes) (vs : list bytes) : bytes :=
  List.concat (map (fun v => indent ++ v) vs).

(** An action that returns, and keeps the recorded length within bounds,
    from every state whose recorded length is within bounds. *)
Definition safe {W} {BW : BufWriter W} {A} (m : M W A) : Prop :=
  forall st : RState W,
    bounded st -> exists a st', m st = Ok (a, st') /\ bounded st'.

(** A sink that breaks the contract: it reports one byte more than it was
    given. *)
Inductive Overcount : Type := overcount.

#[export] Instance OvercountWriter : BufWriter Overcount := {|
  Write o p := (o, (len p + 1, None));
  Flush o := (o, None)
|}.

(** A heading without children. *)
Definition emptyHeading (h : Heading) : Node := mkNode (HeadingData h) [].

(** ** Documents used as examples *)

(** The level-1 heading [Title] over the source [Title], alone and as the
    only child of a document. *)
Definition titleHeading : Node :=
  mkNode (HeadingData (mkHeading 1 [seg 0 5])) [text 0 5].

Definition titleDocument : Node := mkNode DocumentData [titleHeading].

(** The level-3 heading [Sub] as the only child of a document. *)
Definition subDocument : Node :=
  mkNode DocumentData [mkNode (HeadingData (mkHeading 3 [seg 0 3])) [text 0 3]].

(** A fenced code block tagged [go] with one line, and its source. *)
Definition fenceSource : bytes :=
  str "```go" ++ [NL] ++ str "fmt.Println()" ++ [NL] ++ str "```".

Definition fenceDocument : Node :=
  mkNode DocumentData [mkNode (FencedCodeBlockData (Some (seg 3 5)) [seg 6 20]) []].

(** A document of two paragraphs [A] and [B], over the source [AB]. *)
Definition twoParagraphs : Node :=
  mkNode DocumentData [mkNode ParagraphData [text 0 1]; mkNode ParagraphData [text 1 2]].

(** A paragraph [A] followed by an empty level-1 heading, as parsed from a
    text whose last line is a lone hash. *)
Definition paragraphThenEmptyHeading : Node :=
  mkNode DocumentData
    [mkNode ParagraphData [text 0 1]; mkNode (HeadingData (mkHeading 1 [])) []].

(** An HTML block opened by a [pre] tag and never closed, whose second line
    is blank; it has no closure line. *)
Definition preSource : bytes := str "<pre>" ++ [NL; NL].

Definition openPreBlock : Node :=
  mkNode DocumentData
    [mkNode (HTMLBlockData [seg 0 6; seg 6 7] (mkSegment (-1) (-1) 0)) []].

(** An indented code block [foo] followed by a paragraph [B]. *)
Definition codeSource : bytes := str "foo" ++ [NL] ++ str "B".

Definition codeThenParagraph : Node :=
  mkNode DocumentData
    [mkNode (CodeBlockData [seg 0 4]) []; mkNode ParagraphData [text 4 5]].

(** A blockquote holding the paragraph [A], followed by a paragraph [B]. *)
Definition quoteThenParagraph : Node :=
  mkNode DocumentData
    [mkNode (OtherData BlockquoteNode) [mkNode ParagraphData [text 0 1]];
     mkNode ParagraphData [text 1 2]].

(** A paragraph with an emphasis in it, as parsed from [a *b* c]. *)
Definition emphasisDocument : Node :=
  mkNode DocumentData
    [mkNode ParagraphData
       [text 0 2; mkNode (OtherData EmphasisNode) [text 3 4]; text 5 7]].

(** * Properties *)

(** ** Run-time helpers *)

Lemma concat_repeat_single (c : byte) (n : nat) :
  List.concat (repeat [c] n) = repeat c n.
Proof.
  induction n as [|n IH]; simpl; [reflexivity | now rewrite IH].
Qed.

Lemma Repeat_single (c : byte) (count : Z) :
  0 <= count -> Repeat [c] count = Ok (repeat c (Z.to_nat count)).
Proof.
  intros Hc. unfold Repeat.
  destruct (Z.ltb_spec count 0) as [Hneg|_]; [lia|].
  now rewrite concat_repeat_single.
Qed.

Lemma lookup_underline (level : Z) :
  level = 1 \/ level = 2 ->
  lookup [[]; str "="; str "-"] level = Ok [underlineGlyph level].
Proof.
  intros [->| ->]; reflexivity.
Qed.

Lemma lookup_break (style : Z) :
  0 <= style < 3 ->
  lookup [str "-"; str "*"; str "_"] style = Ok [breakGlyph style].
Proof.
  intros H.
  assert (style = 0 \/ style = 1 \/ style = 2) as [->|[->| ->]] by lia;
    reflexivity.
Qed.

Lemma widen_fold (lines : list Segment) (a : Z) :
  widen lines a = Z.max a (fold_right Z.max a (map Segment_Len lines)).
Proof.
  revert a. induction lines as [|l ls IH]; intros a; simpl.
  - lia.
  - rewrite IH.
    destruct (Z.gtb_spec (Segment_Len l) a).
    + assert (Hmono : forall x y, x <= y ->
                fold_right Z.max x (map Segment_Len ls)
                <= fold_right Z.max y (map Segment_Len ls)).
      { clear. induction ls; simpl; intros; [lia|].
        specialize (IHls x y H). lia. }
      assert (Hge : forall x, x <= fold_right Z.max x (map Segment_Len ls)).
      { clear. induction ls; simpl; intros; [lia|]. specialize (IHls x). lia. }
      assert (Hmax : forall x y, x <= y ->
                fold_right Z.max y (map Segment_Len ls)
                = Z.max y (fold_right Z.max x (map Segment_Len ls))).
      { clear. induction ls; simpl; intros; [lia|].
        specialize (IHls x y H). lia. }
      rewrite (Hmax a (Segment_Len l)) by lia.
      specialize (Hge a). lia.
    + lia.
Qed.

Lemma widen_longest (lines : list Segment) : widen lines 3 = longestLine lines.
Proof.
  unfold longestLine. rewrite widen_fold.
  assert (H : 3 <= fold_right Z.max 3 (map Segment_Len lines)).
  { induction lines; simpl; lia. }
  lia.
Qed.

(** ** Running the render monad *)

Ltac unfold_monad :=
  unfold renderBlockSeparator in *;
  unfold bind, lift, ret, LastWriteBytes, Fprint, defaultWriter_Write in *.

Lemma bind_Ok {W A B} (m : M W A) (k : A -> M W B) (st st' : RState W) (a : A) :
  m st = Ok (a, st') -> bind m k st = k a st'.
Proof. intros H. unfold bind. now rewrite H. Qed.

Lemma bind_Panic {W A B} (m : M W A) (k : A -> M W B) (st : RState W) (p : panic) :
  m st = Panic p -> bind m k st = Panic p.
Proof. intros H. unfold bind. now rewrite H. Qed.

Lemma bind_run {W A B} (m : M W A) (k : A -> M W B) (st st' : RState W) (a : A)
    (res : Res (B * RState W)) :
  m st = Ok (a, st') -> k a st' = res -> bind m k st = res.
Proof. intros H <-. now apply bind_Ok. Qed.

Lemma lift_Ok {W A} (x : Res A) (a : A) (st : RState W) :
  x = Ok a -> lift x st = Ok (a, st).
Proof. intros ->. reflexivity. Qed.

Lemma HasChildren_mkNode (d : NodeData) (cs : list Node) :
  HasChildren (mkNode d cs) = negb (match cs with [] => true | _ => false end).
Proof. destruct cs; reflexivity. Qed.

(** ** Heading style resolution *)

Lemma renderHeading_form {W} {BW : BufWriter W} (r : Config) (source : bytes)
    (h : Heading) (cs : list Node) (next : option Node) (entering : bool) :
  renderHeading r source (mkNode (HeadingData h) cs) next entering =
    match resolveHeadingForm (HasChildren (mkNode (HeadingData h) cs)) (Level h)
            (Z.of_nat (List.length (Heading_Lines h))) (HeadingStyle r) with
    | ATXForm => renderATXHeading r source (mkNode (HeadingData h) cs) next h entering
    | SetextForm => renderSetextHeading r source (mkNode (HeadingData h) cs) next h entering
    end.
Proof.
  unfold renderHeading, resolveHeadingForm. cbn [data].
  destruct (HasChildren (mkNode (HeadingData h) cs)); cbn [negb orb]; [|reflexivity].
  destruct (Level h >? 2); [reflexivity|].
  destruct (Z.of_nat (List.length (Heading_Lines h)) >? 1); [reflexivity|].
  destruct (IsSetext (HeadingStyle r)); reflexivity.
Qed.

(** C1: a heading is rendered in the form found by three rules tried in
    order.  With no children or a level above 2 it is rendered by
    [renderATXHeading] whatever the configured style; otherwise, with more
    than one source line, by [renderSetextHeading] whatever the configured
    style; otherwise the configured heading style decides. *)
Theorem renderHeading_priority {W} {BW : BufWriter W} (r : Config) (source : bytes)
    (h : Heading) (cs : list Node) (next : option Node) (entering : bool) :
  (cs = [] \/ 2 < Level h ->
     renderHeading r source (mkNode (HeadingData h) cs) next entering
     = renderATXHeading r source (mkNode (HeadingData h) cs) next h entering)
  /\ (cs <> [] -> Level h <= 2 -> 1 < Z.of_nat (List.length (Heading_Lines h)) ->
     renderHeading r source (mkNode (HeadingData h) cs) next entering
     = renderSetextHeading r source (mkNode (HeadingData h) cs) next h entering)
  /\ (cs <> [] -> Level h <= 2 -> Z.of_nat (List.length (Heading_Lines h)) <= 1 ->
     renderHeading r source (mkNode (HeadingData h) cs) next entering
     = if IsSetext (HeadingStyle r)
       then renderSetextHeading r source (mkNode (HeadingData h) cs) next h entering
       else renderATXHeading r source (mkNode (HeadingData h) cs) next h entering).
Proof.
  rewrite renderHeading_form. unfold resolveHeadingForm.
  rewrite HasChildren_mkNode.
  repeat split.
  - intros [-> | Hlevel]; [reflexivity|].
    destruct cs; cbn [negb]; [reflexivity|].
    destruct (Z.gtb_spec (Level h) 2); [reflexivity | lia].
  - intros Hcs Hlevel Hlines.
    destruct cs as [|c cs']; [contradiction|]. cbn [negb].
    destruct (Z.gtb_spec (Level h) 2); [lia|].
    destruct (Z.gtb_spec (Z.of_nat (List.length (Heading_Lines h))) 1); [reflexivity | lia].
  - intros Hcs Hlevel Hlines.
    destruct cs as [|c cs']; [contradiction|]. cbn [negb].
    destruct (Z.gtb_spec (Level h) 2); [lia|].
    destruct (Z.gtb_spec (Z.of_nat (List.length (Heading_Lines h))) 1); [lia|].
    destruct (IsSetext (HeadingStyle r)); reflexivity.
Qed.

Lemma renderHeading_priority_witness :
  renderHeading (mkConfig HeadingStyleSetext 0 3 (str "    ")) (str "Sub")
    (mkNode (HeadingData (mkHeading 3 [seg 0 3])) [text 0 3]) None true
  = renderATXHeading (W := bytes) (mkConfig HeadingStyleSetext 0 3 (str "    ")) (str "Sub")
      (mkNode (HeadingData (mkHeading 3 [seg 0 3])) [text 0 3]) None
      (mkHeading 3 [seg 0 3]) true
  /\ renderHeading defaultConfig (str "Two lines")
       (mkNode (HeadingData (mkHeading 1 [seg 0 3; seg 4 9])) [text 0 3; text 4 9]) None false
     = renderSetextHeading (W := bytes) defaultConfig (str "Two lines")
         (mkNode (HeadingData (mkHeading 1 [seg 0 3; seg 4 9])) [text 0 3; text 4 9]) None
         (mkHeading 1 [seg 0 3; seg 4 9]) false.
Proof.
  split.
  - apply (proj1 (renderHeading_priority (mkConfig HeadingStyleSetext 0 3 (str "    "))
             (str "Sub") (mkHeading 3 [seg 0 3]) [text 0 3] None true)).
    right. simpl. lia.
  - apply (proj1 (proj2 (renderHeading_priority defaultConfig (str "Two lines")
             (mkHeading 1 [seg 0 3; seg 4 9]) [text 0 3; text 4 9] None false))).
    + discriminate.
    + simpl. lia.
    + simpl. lia.
Defined.

(** ** ATX headings *)

Lemma Repeat_hashes (level : Z) :
  0 <= level -> Repeat (str "#") level = Ok (hashes level).
Proof. intros H. exact (Repeat_single x23 level H). Qed.

(** C5: a heading rendered in ATX form, written to an in-memory buffer.  On
    entry the output grows by level-many hash characters and then by one
    space exactly when the heading has children, and the last-write state is
    untouched; on exit it grows by a space and the same hash run exactly when
    the style is ATX-surround, and then by the block separator. *)
Theorem renderATXHeading_output (r : Config) (source : bytes) (node : Node)
    (next : option Node) (h : Heading) (st : RState bytes) :
  0 <= Level h ->
  renderATXHeading r source node next h true st
  = Ok ((WalkContinue, None),
        mkRState (w st ++ hashes (Level h)
                    ++ (if HasChildren node then [SP] else []))
                 (writer st))
  /\ exists st',
       renderATXHeading r source node next h false st = Ok ((WalkContinue, None), st')
       /\ w st' = w st
                  ++ (if HeadingStyle_eqb (HeadingStyle r) HeadingStyleATXSurround
                      then SP :: hashes (Level h) else [])
                  ++ separator next.
Proof.
  intros Hlevel. unfold renderATXHeading. split.
  - unfold_monad. rewrite (Repeat_hashes _ Hlevel). cbn.
    destruct (HasChildren node); cbn; rewrite <- ?app_assoc, ?app_nil_r; reflexivity.
  - unfold_monad. unfold separator. rewrite (Repeat_hashes _ Hlevel).
    destruct (HeadingStyle_eqb (HeadingStyle r) HeadingStyleATXSurround),
      (isSome next); cbn; eexists; split; try reflexivity; cbn;
      rewrite <- ?app_assoc, ?app_nil_r; reflexivity.
Qed.

Lemma renderATXHeading_output_witness :
  0 <= 3
  /\ renderATXHeading defaultConfig (str "Sub")
       (mkNode (HeadingData (mkHeading 3 [seg 0 3])) [text 0 3]) None
       (mkHeading 3 [seg 0 3]) true (fresh [])
     = Ok ((WalkContinue, None), mkRState (str "### ") newDefaultWriter).
Proof.
  split; [lia|].
  apply (proj1 (renderATXHeading_output defaultConfig (str "Sub")
           (mkNode (HeadingData (mkHeading 3 [seg 0 3])) [text 0 3]) None
           (mkHeading 3 [seg 0 3]) (fresh []) ltac:(simpl; lia))).
Defined.

(** ** Setext headings *)

(** C6: a heading of level 1 or 2 rendered in Setext form, written to an
    in-memory buffer.  Entry leaves the state as it is.  On exit the output
    grows by a newline, an underline of [=] (level 1) or [-] (level 2) and the
    block separator; the underline is 3 long unless the style is full-width
    Setext, and then as long as the longest source line but at least 3.  A
    lone level-1 heading [Title] in plain Setext style renders as the title,
    a newline, three [=] and a newline. *)
Theorem renderSetextHeading_output (r : Config) (source : bytes) (node : Node)
    (next : option Node) (h : Heading) (st : RState bytes) :
  Level h = 1 \/ Level h = 2 ->
  renderSetextHeading r source node next h true st = Ok ((WalkContinue, None), st)
  /\ (exists st',
        renderSetextHeading r source node next h false st = Ok ((WalkContinue, None), st')
        /\ w st' = w st ++ [NL]
                   ++ repeat (underlineGlyph (Level h))
                        (Z.to_nat (underlineWidthOf (HeadingStyle r) (Heading_Lines h)))
                   ++ separator next)
  /\ 3 <= underlineWidthOf (HeadingStyle r) (Heading_Lines h)
  /\ Forall (fun line => HeadingStyle r = HeadingStyleFullWidthSetext ->
                         Segment_Len line <= underlineWidthOf (HeadingStyle r) (Heading_Lines h))
       (Heading_Lines h)
  /\ output (Render (mkConfig HeadingStyleSetext 0 3 (str "    ")) (str "Title")
               titleDocument (fresh []))
     = Some (str "Title" ++ [NL] ++ str "===" ++ [NL]).
Proof.
  intros Hlevel.
  assert (Hge : forall ls, 3 <= longestLine ls).
  { unfold longestLine. induction ls; simpl; lia. }
  assert (Hw : (if HeadingStyle_eqb (HeadingStyle r) HeadingStyleFullWidthSetext
                then widen (Heading_Lines h) 3 else 3)
               = underlineWidthOf (HeadingStyle r) (Heading_Lines h)).
  { rewrite widen_longest. destruct (HeadingStyle r); reflexivity. }
  assert (H3 : 3 <= underlineWidthOf (HeadingStyle r) (Heading_Lines h)).
  { unfold underlineWidthOf. destruct (HeadingStyle r); try lia. apply Hge. }
  split; [reflexivity|]. split; [|split; [exact H3|split]].
  - unfold renderSetextHeading. unfold_monad.
    rewrite (lookup_underline _ Hlevel), Hw.
    rewrite Repeat_single by lia. unfold separator.
    destruct (isSome next); cbn; eexists; split; try reflexivity; cbn;
      rewrite <- ?app_assoc, ?app_nil_r; reflexivity.
  - clear Hw H3. apply Forall_forall. intros line Hin Hstyle. rewrite Hstyle.
    unfold underlineWidthOf, longestLine.
    induction (Heading_Lines h) as [|l ls IH]; [contradiction|].
    simpl. destruct Hin as [->|Hin]; [lia|]. specialize (IH Hin). lia.
  - vm_compute. reflexivity.
Qed.

Lemma renderSetextHeading_output_witness :
  (2 = 1 \/ 2 = 2)
  /\ exists st',
       renderSetextHeading (mkConfig HeadingStyleFullWidthSetext 0 3 (str "    "))
         (str "Section") (mkNode (HeadingData (mkHeading 2 [seg 0 7])) [text 0 7])
         None (mkHeading 2 [seg 0 7]) false (mkRState (str "Section") newDefaultWriter)
       = Ok ((WalkContinue, None), st')
       /\ w st' = str "Section" ++ [NL] ++ str "-------".
Proof.
  split; [right; reflexivity|].
  exact (proj1 (proj2 (renderSetextHeading_output
           (mkConfig HeadingStyleFullWidthSetext 0 3 (str "    ")) (str "Section")
           (mkNode (HeadingData (mkHeading 2 [seg 0 7])) [text 0 7]) None
           (mkHeading 2 [seg 0 7]) (mkRState (str "Section") newDefaultWriter)
           (or_intror eq_refl)))).
Defined.

(** ** Thematic breaks *)

(** C7: on entry a thematic break writes the glyph of the configured style
    index (0 hyphen, 1 asterisk, 2 underscore) repeated max(L, 3) times, L
    being the configured length; so 3 glyphs for a length of 1 and 10 for a
    length of 10. *)
Theorem renderThematicBreak_output (r : Config) (source : bytes) (node : Node)
    (next : option Node) (st : RState bytes) :
  0 <= ThematicBreakStyle r < 3 ->
  exists st',
    renderThematicBreak r source node next true st = Ok ((WalkContinue, None), st')
    /\ w st' = w st ++ repeat (breakGlyph (ThematicBreakStyle r))
                         (Z.to_nat (Z.max (ThematicBreakLength r) 3))
    /\ (ThematicBreakLength r = 1 ->
        w st' = w st ++ repeat (breakGlyph (ThematicBreakStyle r)) 3)
    /\ (ThematicBreakLength r = 10 ->
        w st' = w st ++ repeat (breakGlyph (ThematicBreakStyle r)) 10).
Proof.
  intros Hstyle. unfold renderThematicBreak. unfold_monad.
  rewrite (lookup_break _ Hstyle).
  assert (Hlen : (if ThematicBreakLength r <? ThematicBreakLengthMinimum
                  then ThematicBreakLengthMinimum else ThematicBreakLength r)
                 = Z.max (ThematicBreakLength r) 3).
  { unfold ThematicBreakLengthMinimum.
    destruct (Z.ltb_spec (ThematicBreakLength r) 3); lia. }
  rewrite Hlen, Repeat_single by lia. cbn.
  eexists. split; [reflexivity|]. cbn. repeat split.
  - intros ->. reflexivity.
  - intros ->. reflexivity.
Qed.

Lemma renderThematicBreak_output_witness :
  0 <= 1 < 3
  /\ exists st',
       renderThematicBreak (mkConfig HeadingStyleATX 1 1 (str "    ")) []
         (mkNode ThematicBreakData []) None true (fresh [])
       = Ok ((WalkContinue, None), st')
       /\ w st' = str "***".
Proof.
  split; [lia|].
  destruct (renderThematicBreak_output (mkConfig HeadingStyleATX 1 1 (str "    ")) []
              (mkNode ThematicBreakData []) None (fresh []) ltac:(simpl; lia))
    as [st' [Hrun [_ [Hone _]]]].
  exists st'. split; [exact Hrun|]. exact (Hone eq_refl).
Defined.

(** ** Fenced code blocks *)

Lemma forLines_verbatim (source : bytes) (lines : list Segment) (vs : list bytes)
    (st : RState bytes) :
  Values lines source = Ok vs ->
  exists st',
    forLines lines (fun line => bind (lift (Segment_Value line source))
                                  (fun v => defaultWriter_Write v)) st
    = Ok (tt, st')
    /\ w st' = w st ++ List.concat vs.
Proof.
  revert vs st. induction lines as [|line rest IH]; intros vs st Hvs.
  - injection Hvs as <-. exists st. split; [reflexivity|].
    simpl. now rewrite app_nil_r.
  - simpl in Hvs.
    destruct (Segment_Value line source) as [v|] eqn:Hv; [|discriminate].
    destruct (Values rest source) as [vs'|] eqn:Hrest; [|discriminate].
    injection Hvs as <-.
    destruct (IH vs' (mkRState (w st ++ v) (mkDefaultWriter v (len v))) eq_refl)
      as [st' [Hrun Hout]].
    exists st'. split.
    + cbn [forLines]. unfold bind at 1 2. unfold lift at 1. rewrite Hv.
      unfold defaultWriter_Write at 1. cbn. exact Hrun.
    + rewrite Hout. cbn. now rewrite app_assoc.
Qed.

(** C4: a fenced code block written to an in-memory buffer, its segments
    lying within the source.  Both the entry call and the exit call start by
    writing three backticks.  The entry call goes on with the language tag
    when there is one, a newline and every line verbatim; the exit call goes
    on with the block separator only. *)
Theorem renderFencedCodeBlock_output (source : bytes)
    (Info : option Segment) (lines : list Segment) (cs : list Node)
    (next : option Node) (st : RState bytes)
    (lang : option bytes) (vs : list bytes) :
  Language Info source = Ok lang ->
  Values lines source = Ok vs ->
  (exists st',
     renderFencedCodeBlock source (mkNode (FencedCodeBlockData Info lines) cs)
       next true st = Ok ((WalkContinue, None), st')
     /\ w st' = w st ++ str "```"
                ++ match lang with Some l => l | None => [] end
                ++ [NL] ++ List.concat vs)
  /\ (exists st',
        renderFencedCodeBlock source (mkNode (FencedCodeBlockData Info lines) cs)
          next false st = Ok ((WalkContinue, None), st')
        /\ w st' = w st ++ str "```" ++ separator next).
Proof.
  intros Hlang Hvs. unfold renderFencedCodeBlock. cbn [data]. split.
  - pose (st1 := mkRState (w st ++ str "```")
                   (mkDefaultWriter (str "```") (len (str "```")))).
    assert (Hfence : defaultWriter_Write (str "```") st = Ok (tt, st1))
      by reflexivity.
    assert (Htag : exists st2,
               match lang with
               | Some l => defaultWriter_Write l
               | None => ret tt
               end st1 = Ok (tt, st2)
               /\ w st2 = w st1 ++ match lang with Some l => l | None => [] end).
    { destruct lang as [l|]; eexists; (split; [reflexivity|]); cbn;
        rewrite ?app_nil_r; reflexivity. }
    destruct Htag as [st2 [Htag Hout2]].
    pose (st2' := mkRState (w st2 ++ [NL]) (mkDefaultWriter [NL] (len [NL]))).
    assert (Hnl : defaultWriter_Write [NL] st2 = Ok (tt, st2')) by reflexivity.
    destruct (forLines_verbatim source lines vs st2' Hvs) as [st3 [Hrun Hout3]].
    exists st3. split.
    + eapply bind_run; [exact Hfence|]. cbv beta iota.
      eapply bind_run; [|reflexivity].
      eapply bind_run; [exact (lift_Ok _ _ st1 Hlang)|].
      eapply bind_run; [exact Htag|].
      eapply bind_run; [exact Hnl|].
      exact Hrun.
    + rewrite Hout3. subst st2'. cbn [w]. rewrite Hout2. subst st1. cbn [w].
      now rewrite <- !app_assoc.
  - unfold_monad. unfold separator.
    destruct (isSome next); cbn; eexists; (split; [reflexivity|]); cbn;
      rewrite <- ?app_assoc, ?app_nil_r; reflexivity.
Qed.

Lemma renderFencedCodeBlock_output_witness :
  Language (Some (seg 3 5)) fenceSource = Ok (Some (str "go"))
  /\ Values [seg 6 20] fenceSource = Ok [str "fmt.Println()" ++ [NL]]
  /\ exists st',
       renderFencedCodeBlock fenceSource
         (mkNode (FencedCodeBlockData (Some (seg 3 5)) [seg 6 20]) []) None true (fresh [])
       = Ok ((WalkContinue, None), st')
       /\ w st' = str "```go" ++ [NL] ++ str "fmt.Println()" ++ [NL].
Proof.
  split; [reflexivity|]. split; [reflexivity|].
  exact (proj1 (renderFencedCodeBlock_output fenceSource
           (Some (seg 3 5)) [seg 6 20] [] None (fresh [])
           (Some (str "go")) [str "fmt.Println()" ++ [NL]] eq_refl eq_refl)).
Defined.

(** ** What a write does to the renderer state, whatever the sink *)

Lemma bind_inv {W A B} (m : M W A) (k : A -> M W B) (st st'' : RState W) (b : B) :
  bind m k st = Ok (b, st'') ->
  exists a st', m st = Ok (a, st') /\ k a st' = Ok (b, st'').
Proof.
  unfold bind. destruct (m st) as [[a st']|p]; [|discriminate].
  intros H. now exists a, st'.
Qed.

Lemma ret_inv {W A} (a b : A) (st st' : RState W) :
  ret a st = Ok (b, st') -> b = a /\ st' = st.
Proof. unfold ret. intros H. injection H as <- <-. now split. Qed.

Lemma lift_inv {W A} (x : Res A) (a : A) (st st' : RState W) :
  lift x st = Ok (a, st') -> x = Ok a /\ st' = st.
Proof.
  unfold lift. destruct x; [|discriminate]. intros H. injection H as <- <-. now split.
Qed.

Lemma Fprint_total {W} {BW : BufWriter W} (s : bytes) (st : RState W) :
  exists w', Fprint s st = Ok (tt, mkRState w' (writer st)).
Proof.
  unfold Fprint. destruct (Write (w st) s) as [w' [n e]]. now exists w'.
Qed.

Lemma Fprint_writer {W} {BW : BufWriter W} (s : bytes) (st st' : RState W) (u : unit) :
  Fprint s st = Ok (u, st') -> writer st' = writer st.
Proof.
  destruct (Fprint_total s st) as [w' ->]. intros H. now injection H as <- <-.
Qed.

Lemma defaultWriter_Write_total {W} {BW : BufWriter W} (p : bytes) (st : RState W) :
  exists w' n, defaultWriter_Write p st = Ok (tt, mkRState w' (mkDefaultWriter p n)).
Proof.
  unfold defaultWriter_Write. destruct (Write (w st) p) as [w1 [k e]]. now exists w1, k.
Qed.

Lemma defaultWriter_Write_bytes {W} {BW : BufWriter W} (p : bytes)
    (st st' : RState W) (u : unit) :
  defaultWriter_Write p st = Ok (u, st') -> lastWriteBytes (writer st') = p.
Proof.
  destruct (defaultWriter_Write_total p st) as [w' [n ->]].
  intros H. now injection H as <- <-.
Qed.

Lemma renderBlockSeparator_total {W} {BW : BufWriter W} (source : bytes)
    (node : Node) (next : option Node) (st : RState W) :
  exists st', renderBlockSeparator source node next st = Ok (tt, st').
Proof.
  unfold renderBlockSeparator. destruct next; cbn [isSome].
  - destruct (defaultWriter_Write_total [NL; NL] st) as [w1 [k ->]]. eauto.
  - now exists st.
Qed.

Lemma renderBlockSeparator_writer {W} {BW : BufWriter W} (source : bytes)
    (node : Node) (next : option Node) (st st' : RState W) (u : unit) :
  renderBlockSeparator source node next st = Ok (u, st') ->
  (next = None -> st' = st)
  /\ (next <> None -> lastWriteBytes (writer st') = [NL; NL]).
Proof.
  unfold renderBlockSeparator. destruct next as [sib|]; cbn [isSome]; intros H.
  - split; [discriminate|]. intros _. exact (defaultWriter_Write_bytes _ _ _ _ H).
  - apply ret_inv in H as [_ ->]. split; [reflexivity|]. congruence.
Qed.

(** ** Heading markers and the last-write state *)

Lemma renderATXHeading_writer {W} {BW : BufWriter W} (r : Config) (source : bytes)
    (node : Node) (next : option Node) (h : Heading) (entering : bool)
    (st st' : RState W) (res : HandlerResult) :
  renderATXHeading r source node next h entering st = Ok (res, st') ->
  (entering = true \/ next = None -> writer st' = writer st)
  /\ (entering = false -> next <> None -> lastWriteBytes (writer st') = [NL; NL]).
Proof.
  unfold renderATXHeading. intros H.
  apply bind_inv in H as [u [st1 [H Hret]]]. apply ret_inv in Hret as [_ ->].
  destruct entering.
  - split; [intros _|discriminate].
    apply bind_inv in H as [chars [st2 [Hrep H]]]. apply lift_inv in Hrep as [_ ->].
    apply bind_inv in H as [u1 [st3 [Hhash H]]].
    apply Fprint_writer in Hhash. rewrite <- Hhash.
    destruct (HasChildren node).
    + exact (Fprint_writer _ _ _ _ H).
    + now apply ret_inv in H as [_ ->].
  - apply bind_inv in H as [u1 [st2 [Hclose Hsep]]].
    assert (Hkeep : writer st2 = writer st).
    { destruct (HeadingStyle_eqb (HeadingStyle r) HeadingStyleATXSurround).
      - apply bind_inv in Hclose as [chars [st3 [Hrep Hclose]]].
        apply lift_inv in Hrep as [_ ->].
        exact (Fprint_writer _ _ _ _ Hclose).
      - now apply ret_inv in Hclose as [_ ->]. }
    apply renderBlockSeparator_writer in Hsep as [Hnone Hsome].
    split.
    + intros [Habs | Hnext]; [discriminate|]. now rewrite (Hnone Hnext).
    + intros _ Hnext. exact (Hsome Hnext).
Qed.

Lemma renderSetextHeading_writer {W} {BW : BufWriter W} (r : Config) (source : bytes)
    (node : Node) (next : option Node) (h : Heading) (entering : bool)
    (st st' : RState W) (res : HandlerResult) :
  renderSetextHeading r source node next h entering st = Ok (res, st') ->
  (entering = true \/ next = None -> writer st' = writer st)
  /\ (entering = false -> next <> None -> lastWriteBytes (writer st') = [NL; NL]).
Proof.
  unfold renderSetextHeading. intros H. destruct entering.
  - apply ret_inv in H as [_ ->]. split; [reflexivity | discriminate].
  - apply bind_inv in H as [glyph [st1 [Hglyph H]]]. apply lift_inv in Hglyph as [_ ->].
    apply bind_inv in H as [line [st2 [Hline H]]]. apply lift_inv in Hline as [_ ->].
    apply bind_inv in H as [u1 [st3 [Hprint H]]].
    apply Fprint_writer in Hprint.
    apply bind_inv in H as [u2 [st4 [Hsep Hret]]]. apply ret_inv in Hret as [_ ->].
    apply renderBlockSeparator_writer in Hsep as [Hnone Hsome].
    split.
    + intros [Habs | Hnext]; [discriminate|]. now rewrite (Hnone Hnext).
    + intros _ Hnext. exact (Hsome Hnext).
Qed.

(** C9: only [Writer.Write] updates the last-write state.  A direct write to
    the buffered writer leaves it as it was, so the hash run, its space, the
    closing hashes and the Setext underline of a heading do not show in it:
    after either phase of a heading the last-write state is the one before,
    except that an exit with a following sibling records the separator.  For
    the heading [Title] in Setext style the output ends with the underline
    while the last write recorded is the title text. *)
Theorem heading_markers_bypass_last_write {W} {BW : BufWriter W} (r : Config)
    (source : bytes) (h : Heading) (cs : list Node) (next : option Node)
    (entering : bool) (st : RState W) :
  (forall s, exists w', Fprint s st = Ok (tt, mkRState w' (writer st)))
  /\ (forall res st',
        renderHeading r source (mkNode (HeadingData h) cs) next entering st
        = Ok (res, st') ->
        (entering = true \/ next = None -> writer st' = writer st)
        /\ (entering = false -> next <> None ->
            lastWriteBytes (writer st') = [NL; NL]))
  /\ walkHelper (mkConfig HeadingStyleSetext 0 3 (str "    ")) (str "Title")
       titleHeading None (fresh [])
     = Ok ((WalkContinue, None),
           mkRState (str "Title" ++ [NL] ++ str "===")
                    (mkDefaultWriter (str "Title") 5)).
Proof.
  split; [|split].
  - intros s. apply Fprint_total.
  - intros res st'. rewrite renderHeading_form.
    destruct (resolveHeadingForm _ _ _ _).
    + apply renderATXHeading_writer.
    + apply renderSetextHeading_writer.
  - vm_compute. reflexivity.
Qed.

Lemma heading_markers_bypass_last_write_witness :
  renderHeading defaultConfig [] (mkNode (HeadingData (mkHeading 2 [])) []) None true
    (mkRState (str "Para" ++ [NL; NL]) (mkDefaultWriter [NL; NL] 2))
  = Ok ((WalkContinue, None),
        mkRState (str "Para" ++ [NL; NL] ++ str "##") (mkDefaultWriter [NL; NL] 2))
  /\ writer (mkRState (str "Para" ++ [NL; NL] ++ str "##")
               (mkDefaultWriter [NL; NL] 2))
     = writer (mkRState (str "Para" ++ [NL; NL]) (mkDefaultWriter [NL; NL] 2)).
Proof.
  split; [reflexivity|].
  destruct (heading_markers_bypass_last_write defaultConfig []
              (mkHeading 2 []) [] None true
              (mkRState (str "Para" ++ [NL; NL]) (mkDefaultWriter [NL; NL] 2)))
    as [_ [Hphase _]].
  apply (Hphase (WalkContinue, None)
           (mkRState (str "Para" ++ [NL; NL] ++ str "##") (mkDefaultWriter [NL; NL] 2))).
  - reflexivity.
  - left. reflexivity.
Defined.

(** ** The Setext underline lookup *)

Lemma renderATXHeading_total {W} {BW : BufWriter W} (r : Config) (source : bytes)
    (node : Node) (next : option Node) (h : Heading) (entering : bool)
    (st : RState W) :
  0 <= Level h ->
  exists st', renderATXHeading r source node next h entering st
              = Ok ((WalkContinue, None), st').
Proof.
  intros Hlevel. unfold renderATXHeading.
  destruct entering.
  - destruct (Fprint_total (hashes (Level h)) st) as [w1 Hhash].
    assert (Hspace : exists st2,
               (if HasChildren node then Fprint (str " ") else ret tt)
                 (mkRState w1 (writer st)) = Ok (tt, st2)).
    { destruct (HasChildren node).
      - destruct (Fprint_total (str " ") (mkRState w1 (writer st))) as [w2 ->]. eauto.
      - eexists. reflexivity. }
    destruct Hspace as [st2 Hspace].
    exists st2.
    eapply bind_run; [|reflexivity].
    eapply bind_run; [exact (lift_Ok _ _ st (Repeat_hashes _ Hlevel))|].
    eapply bind_run; [exact Hhash|]. exact Hspace.
  - assert (Hclose : exists st1,
               (if HeadingStyle_eqb (HeadingStyle r) HeadingStyleATXSurround
                then bind (lift (Repeat (str "#") (Level h)))
                       (fun atxHeadingChars => Fprint (str " " ++ atxHeadingChars))
                else ret tt) st = Ok (tt, st1)).
    { destruct (HeadingStyle_eqb (HeadingStyle r) HeadingStyleATXSurround).
      - destruct (Fprint_total (str " " ++ hashes (Level h)) st) as [w1 Hw1].
        eexists. eapply bind_run; [exact (lift_Ok _ _ st (Repeat_hashes _ Hlevel))|].
        exact Hw1.
      - eexists. reflexivity. }
    destruct Hclose as [st1 Hclose].
    destruct (renderBlockSeparator_total source node next st1) as [st2 Hsep].
    exists st2.
    eapply bind_run; [|reflexivity].
    eapply bind_run; [exact Hclose|]. exact Hsep.
Qed.

Lemma renderSetextHeading_total {W} {BW : BufWriter W} (r : Config) (source : bytes)
    (node : Node) (next : option Node) (h : Heading) (entering : bool)
    (st : RState W) :
  Level h = 1 \/ Level h = 2 ->
  exists st', renderSetextHeading r source node next h entering st
              = Ok ((WalkContinue, None), st').
Proof.
  intros Hlevel. unfold renderSetextHeading.
  destruct entering; [eexists; reflexivity|].
  set (width := if HeadingStyle_eqb (HeadingStyle r) HeadingStyleFullWidthSetext
                then widen (Heading_Lines h) 3 else 3).
  assert (Hwidth : 0 <= width).
  { subst width. destruct (HeadingStyle_eqb _ _); [|lia].
    rewrite widen_fold. lia. }
  destruct (Fprint_total ([NL] ++ repeat (underlineGlyph (Level h)) (Z.to_nat width)) st)
    as [w1 Hline].
  destruct (renderBlockSeparator_total source node next (mkRState w1 (writer st)))
    as [st2 Hsep].
  exists st2.
  eapply bind_run; [exact (lift_Ok _ _ st (lookup_underline _ Hlevel))|].
  eapply bind_run; [exact (lift_Ok _ _ st (Repeat_single _ _ Hwidth))|].
  eapply bind_run; [exact Hline|].
  eapply bind_run; [exact Hsep|]. reflexivity.
Qed.

(** Outside [renderHeading] the lookup can fail: a level-3 heading handed to
    [renderSetextHeading] directly indexes past the table. *)
Example renderSetextHeading_level3_panics :
  renderSetextHeading defaultConfig [] (mkNode (HeadingData (mkHeading 3 [])) [])
    None (mkHeading 3 []) false (fresh ([] : bytes))
  = Panic IndexOutOfRange.
Proof. reflexivity. Qed.

(** C10: for a heading whose level is at least 1, [renderHeading] reaches
    [renderSetextHeading] only when the heading has children and its level is
    at most 2, where the lookup in the three-element underline table
    succeeds; so both phases of [renderHeading] return without a panic. *)
Theorem setext_lookup_in_bounds {W} {BW : BufWriter W} (r : Config) (source : bytes)
    (h : Heading) (cs : list Node) (next : option Node) (entering : bool)
    (st : RState W) :
  1 <= Level h ->
  (renderHeading r source (mkNode (HeadingData h) cs) next entering
   = renderATXHeading r source (mkNode (HeadingData h) cs) next h entering
   \/ (renderHeading r source (mkNode (HeadingData h) cs) next entering
       = renderSetextHeading r source (mkNode (HeadingData h) cs) next h entering
       /\ cs <> [] /\ Level h <= 2
       /\ lookup [[]; str "="; str "-"] (Level h) = Ok [underlineGlyph (Level h)]))
  /\ exists st',
       renderHeading r source (mkNode (HeadingData h) cs) next entering st
       = Ok ((WalkContinue, None), st').
Proof.
  intros Hlevel. rewrite renderHeading_form.
  unfold resolveHeadingForm. rewrite HasChildren_mkNode.
  destruct cs as [|c cs']; cbn [negb].
  - split; [left; reflexivity|]. apply renderATXHeading_total. lia.
  - destruct (Z.gtb_spec (Level h) 2) as [Hhigh|Hlow].
    + split; [left; reflexivity|]. apply renderATXHeading_total. lia.
    + assert (Hin : Level h = 1 \/ Level h = 2) by lia.
      assert (Hsetext :
                (renderSetextHeading r source (mkNode (HeadingData h) (c :: cs')) next h entering
                 = renderSetextHeading r source (mkNode (HeadingData h) (c :: cs')) next h entering
                 /\ c :: cs' <> [] /\ Level h <= 2
                 /\ lookup [[]; str "="; str "-"] (Level h) = Ok [underlineGlyph (Level h)])).
      { repeat split; [discriminate | lia | exact (lookup_underline _ Hin)]. }
      destruct (Z.of_nat (List.length (Heading_Lines h)) >? 1).
      * split; [right; exact Hsetext|]. now apply renderSetextHeading_total.
      * destruct (IsSetext (HeadingStyle r)).
        -- split; [right; exact Hsetext|]. now apply renderSetextHeading_total.
        -- split; [left; reflexivity|]. apply renderATXHeading_total. lia.
Qed.

Lemma setext_lookup_in_bounds_witness :
  1 <= 2
  /\ exists st',
       renderHeading (mkConfig HeadingStyleSetext 0 3 (str "    ")) (str "Part")
         (mkNode (HeadingData (mkHeading 2 [seg 0 4])) [text 0 4]) None false
         (mkRState (str "Part") (mkDefaultWriter (str "Part") 4))
       = Ok ((WalkContinue, None), st').
Proof.
  split; [lia|].
  exact (proj2 (setext_lookup_in_bounds (mkConfig HeadingStyleSetext 0 3 (str "    "))
           (str "Part") (mkHeading 2 [seg 0 4]) [text 0 4] None false
           (mkRState (str "Part") (mkDefaultWriter (str "Part") 4))
           ltac:(simpl; lia))).
Defined.

(** ** The walk *)

Lemma walkHelper_unfold {W} {BW : BufWriter W} (r : Config) (source : bytes)
    (d : NodeData) (cs : list Node) (next : option Node) :
  walkHelper r source (mkNode d cs) next =
  bind (walker r source (mkNode d cs) next true) (fun res =>
    if stops res then ret res
    else
      bind (if negb (WalkStatus_eqb (fst res) WalkSkipChildren)
            then walkChildren r source cs else ret None)
        (fun stopped =>
           match stopped with
           | Some out => ret out
           | None =>
               bind (walker r source (mkNode d cs) next false) (fun res' =>
                 if stops res' then ret (WalkStop, snd res')
                 else ret (WalkContinue, None))
           end)).
Proof. reflexivity. Qed.

Lemma walkChildren_cons {W} {BW : BufWriter W} (r : Config) (source : bytes)
    (c : Node) (rest : list Node) :
  walkChildren r source (c :: rest) =
  bind (walkHelper r source c (hd_error rest)) (fun st =>
    if stops st then ret (Some (WalkStop, snd st))
    else walkChildren r source rest).
Proof. reflexivity. Qed.

(** The highest registered kind is that of text nodes. *)
Lemma maxKind_KindText : maxKind = kindIndex KindText.
Proof. reflexivity. Qed.

Lemma kindIndex_pos (k : NodeKind) : 0 <= kindIndex k.
Proof. destruct k; cbn [kindIndex]; lia. Qed.

(** Within the table the walker calls the registered function, if any. *)
Lemma walker_in_table {W} {BW : BufWriter W} (r : Config) (source : bytes)
    (n : Node) (next : option Node) (entering : bool) :
  kindIndex (Kind n) <= maxKind ->
  walker r source n next entering
  = match RegisterFuncs r (Kind n) with
    | Some f => f source n next entering
    | None => ret (WalkContinue, None)
    end.
Proof.
  intros Hin. unfold walker, nodeRendererFuncs.
  pose proof (kindIndex_pos (Kind n)) as Hpos.
  destruct (Z.leb_spec 0 (kindIndex (Kind n))); [|lia].
  destruct (Z.leb_spec (kindIndex (Kind n)) maxKind); [|lia].
  reflexivity.
Qed.

(** Past the table the lookup panics, before any function runs. *)
Lemma walker_past_table {W} {BW : BufWriter W} (r : Config) (source : bytes)
    (n : Node) (next : option Node) (entering : bool) (st : RState W) :
  maxKind < kindIndex (Kind n) ->
  walker r source n next entering st = Panic IndexOutOfRange.
Proof.
  intros Hout. unfold walker, nodeRendererFuncs.
  destruct (Z.leb_spec (kindIndex (Kind n)) maxKind); [lia|].
  rewrite andb_false_r. reflexivity.
Qed.

(** The kinds of the eight nodes with a renderer function lie in the table. *)
Lemma registered_in_table (d : NodeData) (cs : list Node) :
  match d with OtherData _ => False | _ => True end ->
  kindIndex (Kind (mkNode d cs)) <= maxKind.
Proof. destruct d; intros H; try contradiction; vm_compute; discriminate. Qed.

Ltac open_walker :=
  rewrite !walker_in_table by (apply registered_in_table; exact I);
  unfold Kind; cbn [data RegisterFuncs].

Lemma RegisterFuncs_other {W} {BW : BufWriter W} (r : Config) (o : OtherNode) :
  RegisterFuncs r (OtherNode_Kind o) = None.
Proof. destruct o; reflexivity. Qed.

(** A node without a renderer function: nothing happens when its kind lies
    in the table, and the lookup panics when it lies past it. *)
Lemma walker_other {W} {BW : BufWriter W} (r : Config) (source : bytes)
    (o : OtherNode) (cs : list Node) (next : option Node) (entering : bool)
    (st : RState W) :
  walker r source (mkNode (OtherData o) cs) next entering st
  = if kindIndex (OtherNode_Kind o) <=? maxKind
    then Ok ((WalkContinue, None), st)
    else Panic IndexOutOfRange.
Proof.
  destruct (Z.leb_spec (kindIndex (OtherNode_Kind o)) maxKind) as [Hin|Hout].
  - rewrite walker_in_table by exact Hin.
    unfold Kind. cbn [data]. now rewrite RegisterFuncs_other.
  - now apply walker_past_table.
Qed.

Lemma bind_ret_result {W A B} (m : M W A) (v res : B) (st st' : RState W) :
  bind m (fun _ => ret v) st = Ok (res, st') -> res = v.
Proof.
  intros H. apply bind_inv in H as [a [st1 [_ H]]]. now apply ret_inv in H as [-> _].
Qed.

Lemma renderSetextHeading_result {W} {BW : BufWriter W} (r : Config) (source : bytes)
    (node : Node) (next : option Node) (h : Heading) (entering : bool)
    (st st' : RState W) (res : HandlerResult) :
  renderSetextHeading r source node next h entering st = Ok (res, st') ->
  res = (WalkContinue, None).
Proof.
  unfold renderSetextHeading. destruct entering; intros H.
  - now apply ret_inv in H as [-> _].
  - apply bind_inv in H as [glyph [st1 [_ H]]].
    apply bind_inv in H as [line [st2 [_ H]]].
    apply bind_inv in H as [u1 [st3 [_ H]]].
    exact (bind_ret_result _ _ _ _ _ H).
Qed.

(** Every registered renderer function, when it returns, returns
    [WalkContinue] and a nil error. *)
Lemma walker_result {W} {BW : BufWriter W} (r : Config) (source : bytes)
    (n : Node) (next : option Node) (entering : bool)
    (st st' : RState W) (res : HandlerResult) :
  walker r source n next entering st = Ok (res, st') ->
  res = (WalkContinue, None).
Proof.
  destruct n as [d cs]. destruct d.
  1-8: open_walker.
  - apply bind_ret_result.
  - rewrite renderHeading_form. destruct (resolveHeadingForm _ _ _ _).
    + apply bind_ret_result.
    + apply renderSetextHeading_result.
  - apply bind_ret_result.
  - apply bind_ret_result.
  - unfold renderCodeBlock. cbn [data]. apply bind_ret_result.
  - unfold renderFencedCodeBlock. cbn [data]. intros H.
    apply bind_inv in H as [u [st1 [_ H]]]. exact (bind_ret_result _ _ _ _ _ H).
  - unfold renderHTMLBlock. cbn [data]. apply bind_ret_result.
  - unfold renderText. cbn [data]. apply bind_ret_result.
  - rewrite walker_other.
    destruct (kindIndex (OtherNode_Kind other) <=? maxKind); [|discriminate].
    intros H. now injection H as <- _.
Qed.

Lemma walkHelper_result {W} {BW : BufWriter W} (r : Config) (source : bytes)
    (n : Node) :
  forall (next : option Node) (st st' : RState W) (res : HandlerResult),
    walkHelper r source n next st = Ok (res, st') ->
    res = (WalkContinue, None).
Proof.
  induction n as [d cs IH] using Node_ind. intros next st st' res.
  rewrite walkHelper_unfold. intros H.
  apply bind_inv in H as [res1 [st1 [Henter H]]].
  apply walker_result in Henter as ->. cbn [stops fst snd isSome WalkStatus_eqb orb negb] in H.
  apply bind_inv in H as [stopped [st2 [Hkids H]]].
  assert (Hnone : stopped = None).
  { clear H. revert st1 st2 Hkids.
    induction IH as [|c rest Hc _ IHrest]; intros st1 st2 Hkids.
    - now apply ret_inv in Hkids as [-> _].
    - rewrite walkChildren_cons in Hkids.
      apply bind_inv in Hkids as [resc [stc [Hwalk Hrest]]].
      apply Hc in Hwalk as ->.
      cbn [stops fst snd isSome WalkStatus_eqb orb] in Hrest.
      exact (IHrest _ _ Hrest). }
  subst stopped.
  apply bind_inv in H as [res2 [st3 [Hexit H]]].
  apply walker_result in Hexit as ->.
  cbn [stops fst snd isSome WalkStatus_eqb orb] in H.
  now apply ret_inv in H as [-> _].
Qed.

(** C8, as the code has it: a failed write aborts nothing.  Whatever the sink
    answers to a write, a walk that returns (it did not panic) returns
    [WalkContinue] with a nil error, so no write failure ends it or is
    reported by it; the outcome of [Render] is then what the final [Flush]
    reports. *)
Theorem write_failure_never_aborts {W} {BW : BufWriter W} (r : Config)
    (source : bytes) (n : Node) (next : option Node) (st : RState W) :
  (forall res st',
     walkHelper r source n next st = Ok (res, st') -> res = (WalkContinue, None))
  /\ Render r source n st
     = match walkHelper r source n None st with
       | Ok (_, st1) =>
           Ok (snd (Flush (w st1)), mkRState (fst (Flush (w st1))) (writer st1))
       | Panic p => Panic p
       end.
Proof.
  split.
  - intros res st'. apply walkHelper_result.
  - unfold Render, bind.
    destruct (walkHelper r source n None st) as [[res st1]|p] eqn:Hwalk; [|reflexivity].
    apply walkHelper_result in Hwalk as ->. cbn [snd].
    destruct (Flush (w st1)) as [w' e]. reflexivity.
Qed.

(** Counterexample to C8 as stated, on a sink with room for one byte: the
    second write (the separator after [A]) is cut short with an error, yet
    the walk goes on to attempt the two writes that remain and returns
    [WalkContinue] and no error; only the final [Flush] hands the error to
    the caller. *)
Lemma write_failure_counterexample :
  Write (mkQuota (str "A") 0 1 None) [NL; NL]
  = (mkQuota (str "A") 0 2 (Some ErrShortWrite), (0, Some ErrShortWrite))
  /\ walkHelper defaultConfig (str "AB") twoParagraphs None
       (fresh (mkQuota [] 1 0 None))
     = Ok ((WalkContinue, None),
           mkRState (mkQuota (str "A") 0 4 (Some ErrShortWrite))
                    (mkDefaultWriter [NL] 0))
  /\ Render defaultConfig (str "AB") twoParagraphs (fresh (mkQuota [] 1 0 None))
     = Ok (Some ErrShortWrite,
           mkRState (mkQuota (str "A") 0 4 (Some ErrShortWrite))
                    (mkDefaultWriter [NL] 0)).
Proof. repeat split. Qed.

Lemma write_failure_never_aborts_witness :
  walkHelper defaultConfig (str "AB") twoParagraphs None (fresh (mkQuota [] 1 0 None))
  = Ok ((WalkContinue, None),
        mkRState (mkQuota (str "A") 0 4 (Some ErrShortWrite)) (mkDefaultWriter [NL] 0))
  /\ (WalkContinue, @None error) = (WalkContinue, None).
Proof.
  split; [reflexivity|].
  exact (proj1 (write_failure_never_aborts defaultConfig (str "AB") twoParagraphs None
                  (fresh (mkQuota [] 1 0 None)))
           (WalkContinue, None)
           (mkRState (mkQuota (str "A") 0 4 (Some ErrShortWrite))
              (mkDefaultWriter [NL] 0)) eq_refl).
Defined.

(** ** The block separator *)

Ltac case_scrutinee :=
  match goal with
  | |- context [match ?x with _ => _ end] =>
      lazymatch x with
      | context [match _ with _ => _ end] => fail
      | _ => destruct x eqn:?
      end
  end.

(** Entering a node never looks at its next sibling. *)
Lemma walker_enter_alone {W} {BW : BufWriter W} (r : Config) (source : bytes)
    (n : Node) (next : option Node) :
  walker r source n next true = walker r source n None true.
Proof.
  destruct n as [d cs]. destruct d.
  1-8: open_walker; reflexivity.
  unfold walker, nodeRendererFuncs, Kind. cbn [data].
  rewrite RegisterFuncs_other.
  destruct ((0 <=? kindIndex (OtherNode_Kind other))
            && (kindIndex (OtherNode_Kind other) <=? maxKind)); reflexivity.
Qed.

(** Leaving a block is leaving it as a last sibling, then the separator. *)
Lemma walker_exit_block {W} {BW : BufWriter W} (r : Config) (source : bytes)
    (n : Node) (next : option Node) (st : RState W) :
  isBlock n = true ->
  walker r source n next false st
  = afterwards (walker r source n None false st)
      (renderBlockSeparator source n next).
Proof.
  destruct n as [d cs].
  destruct d as [ | | | | | | | |o]; try destruct o;
    try (intros H; discriminate H); intros _; open_walker.
  - rewrite !renderHeading_form. destruct (resolveHeadingForm _ _ _ _).
    + unfold renderATXHeading, afterwards. unfold_monad.
      destruct next; cbn [isSome]; repeat (case_scrutinee; cbn [w writer] in * );
        first [reflexivity | congruence].
    + unfold renderSetextHeading, afterwards. unfold_monad.
      destruct next; cbn [isSome]; repeat (case_scrutinee; cbn [w writer] in * );
        first [reflexivity | congruence].
  - unfold renderParagraph, afterwards. unfold_monad.
    destruct next; cbn [isSome negb]; repeat (case_scrutinee; cbn [w writer] in * );
        first [reflexivity | congruence].
  - unfold renderThematicBreak, afterwards. unfold_monad.
    destruct next; cbn [isSome]; repeat (case_scrutinee; cbn [w writer] in * );
        first [reflexivity | congruence].
  - unfold renderCodeBlock, afterwards. cbn [data]. unfold_monad.
    destruct next; cbn [isSome]; repeat (case_scrutinee; cbn [w writer] in * );
        first [reflexivity | congruence].
  - unfold renderFencedCodeBlock, afterwards. cbn [data]. unfold_monad.
    destruct next; cbn [isSome]; repeat (case_scrutinee; cbn [w writer] in * );
        first [reflexivity | congruence].
  - unfold renderHTMLBlock, afterwards. cbn [data]. unfold_monad.
    destruct next; cbn [isSome]; repeat (case_scrutinee; cbn [w writer] in * );
        first [reflexivity | congruence].
Qed.

Lemma walkChildren_result {W} {BW : BufWriter W} (r : Config) (source : bytes)
    (cs : list Node) :
  forall (st st' : RState W) (stopped : option HandlerResult),
    walkChildren r source cs st = Ok (stopped, st') -> stopped = None.
Proof.
  induction cs as [|c rest IH]; intros st st' stopped H.
  - now apply ret_inv in H as [-> _].
  - rewrite walkChildren_cons in H.
    apply bind_inv in H as [resc [stc [Hwalk Hrest]]].
    apply walkHelper_result in Hwalk as ->.
    cbn [stops fst snd isSome WalkStatus_eqb orb] in Hrest.
    exact (IH _ _ _ Hrest).
Qed.

(** Walking a block that has a next sibling is walking it as a last sibling
    and then running the separator. *)
Lemma walkHelper_block_next {W} {BW : BufWriter W} (r : Config) (source : bytes)
    (n : Node) (next : option Node) (st : RState W) :
  isBlock n = true ->
  walkHelper r source n next st
  = afterwards (walkHelper r source n None st)
      (renderBlockSeparator source n next).
Proof.
  intros Hblock. destruct n as [d cs]. rewrite !walkHelper_unfold.
  rewrite (walker_enter_alone r source (mkNode d cs) next).
  destruct (walker r source (mkNode d cs) None true st) as [[res st1]|p] eqn:Henter;
    [|now do 2 rewrite (bind_Panic _ _ _ _ Henter)].
  do 2 rewrite (bind_Ok _ _ _ _ _ Henter).
  apply walker_result in Henter as ->.
  cbn [stops fst snd isSome WalkStatus_eqb orb negb].
  destruct (walkChildren r source cs st1) as [[stopped st2]|p] eqn:Hkids;
    [|now do 2 rewrite (bind_Panic _ _ _ _ Hkids)].
  do 2 rewrite (bind_Ok _ _ _ _ _ Hkids).
  apply walkChildren_result in Hkids as ->.
  unfold bind. rewrite (walker_exit_block r source (mkNode d cs) next st2 Hblock).
  destruct (walker r source (mkNode d cs) None false st2) as [[res st3]|p] eqn:Hexit;
    [|reflexivity].
  apply walker_result in Hexit as ->.
  unfold afterwards, ret. cbn [stops fst snd isSome WalkStatus_eqb orb].
  destruct (renderBlockSeparator source (mkNode d cs) next st3) as [[u st4]|p];
    reflexivity.
Qed.

(** Counterexample to C3 as stated.  After an indented code block the next
    paragraph starts three newlines on, not two: the line of the block ends
    in its own newline and the separator adds two more.  After a blockquote,
    which has no renderer function, the next paragraph starts at once. *)
Lemma block_separator_counterexample :
  output (Render defaultConfig codeSource codeThenParagraph (fresh []))
  = Some (str "    foo" ++ [NL; NL; NL] ++ str "B" ++ [NL])
  /\ output (Render defaultConfig (str "AB") quoteThenParagraph (fresh []))
     = Some (str "AB" ++ [NL]).
Proof. split; reflexivity. Qed.

(** C3, as the code has it, for blocks of the six kinds with a renderer
    function, written to an in-memory buffer.  Walking such a block that has
    a next sibling writes what walking it as a last sibling writes and then
    exactly two newlines; walking it without a next sibling adds nothing.  So
    in a list of siblings exactly two newlines follow such a block before
    the next sibling starts, and none follow the last one; two paragraphs
    [A] and [B] render as A, two newlines, B and the final newline. *)
Theorem block_separator_between_siblings (r : Config) (source : bytes)
    (a : Node) (next : option Node) (st : RState bytes) :
  isBlock a = true ->
  match walkHelper r source a None st with
  | Ok (_, st1) =>
      walkHelper r source a next st
      = Ok ((WalkContinue, None),
            if isSome next
            then mkRState (w st1 ++ [NL; NL]) (mkDefaultWriter [NL; NL] 2)
            else st1)
      /\ walkChildren r source [a] st = Ok (None, st1)
      /\ forall b rest,
           walkChildren r source (a :: b :: rest) st
           = walkChildren r source (b :: rest)
               (mkRState (w st1 ++ [NL; NL]) (mkDefaultWriter [NL; NL] 2))
  | Panic p => walkHelper r source a next st = Panic p
  end
  /\ output (Render defaultConfig (str "AB") twoParagraphs (fresh []))
     = Some (str "A" ++ [NL; NL] ++ str "B" ++ [NL]).
Proof.
  intros Hblock. split; [|reflexivity].
  assert (Hnext : forall nxt, walkHelper r source a nxt st
                    = afterwards (walkHelper r source a None st)
                        (renderBlockSeparator source a nxt))
    by (intros nxt; now apply walkHelper_block_next).
  destruct (walkHelper r source a None st) as [[res st1]|p] eqn:Hlast.
  - pose proof (walkHelper_result _ _ _ _ _ _ _ Hlast) as ->.
    split; [|split].
    + rewrite Hnext. destruct next; reflexivity.
    + rewrite walkChildren_cons. cbn [hd_error].
      unfold bind. rewrite Hlast. reflexivity.
    + intros b rest. rewrite walkChildren_cons. cbn [hd_error].
      unfold bind at 1. rewrite (Hnext (Some b)). reflexivity.
  - rewrite Hnext. reflexivity.
Qed.

Lemma block_separator_between_siblings_witness :
  isBlock (mkNode ParagraphData [text 0 1]) = true
  /\ walkHelper defaultConfig (str "AB") (mkNode ParagraphData [text 0 1])
       (Some (mkNode ParagraphData [text 1 2])) (fresh [])
     = Ok ((WalkContinue, None),
           mkRState (str "A" ++ [NL; NL]) (mkDefaultWriter [NL; NL] 2)).
Proof.
  split; [reflexivity|].
  exact (proj1 (proj1 (block_separator_between_siblings defaultConfig (str "AB")
           (mkNode ParagraphData [text 0 1]) (Some (mkNode ParagraphData [text 1 2]))
           (fresh []) eq_refl))).
Defined.

(** ** The trailing newline *)

Lemma index_last (b : bytes) (c : byte) :
  index (b ++ [c]) (len (b ++ [c]) - 1) = Ok c.
Proof.
  unfold index, len. rewrite length_app. cbn [List.length].
  replace (Z.of_nat (List.length b + 1) - 1) with (Z.of_nat (List.length b)) by lia.
  destruct (Z.leb_spec 0 (Z.of_nat (List.length b))); [|lia].
  destruct (Z.ltb_spec (Z.of_nat (List.length b)) (Z.of_nat (List.length b + 1))); [|lia].
  cbn [andb]. rewrite Nat2Z.id, nth_error_app2 by lia.
  now rewrite Nat.sub_diag.
Qed.

Lemma write_synced (p : bytes) (st : RState bytes) :
  exists st', defaultWriter_Write p st = Ok (tt, st')
              /\ synced st' /\ w st' = w st ++ p.
Proof.
  eexists. split; [reflexivity|]. split; [|reflexivity].
  split; [reflexivity|]. now exists (w st).
Qed.

Lemma separator_synced (source : bytes) (node : Node) (next : option Node)
    (st : RState bytes) :
  synced st ->
  exists st', renderBlockSeparator source node next st = Ok (tt, st') /\ synced st'.
Proof.
  intros Hs. unfold renderBlockSeparator. destruct next; cbn [isSome].
  - destruct (write_synced [NL; NL] st) as [st' [H [Hs' _]]]. eauto.
  - exists st. now split.
Qed.

Lemma forLines_synced (lines : list Segment) (body : Segment -> M bytes unit) :
  Forall (fun line => forall st, synced st ->
            exists st', body line st = Ok (tt, st') /\ synced st') lines ->
  forall st, synced st ->
    exists st', forLines lines body st = Ok (tt, st') /\ synced st'.
Proof.
  induction 1 as [|line rest Hline _ IH]; intros st Hs.
  - exists st. now split.
  - destruct (Hline st Hs) as [st1 [Hrun Hs1]].
    destruct (IH st1 Hs1) as [st2 [Hrest Hs2]].
    exists st2. split; [|exact Hs2].
    cbn [forLines]. eapply bind_run; [exact Hrun|]. exact Hrest.
Qed.

Lemma Values_Forall (lines : list Segment) (source : bytes) :
  isOk (Values lines source) = true ->
  Forall (fun line => isOk (Segment_Value line source) = true) lines.
Proof.
  induction lines as [|line rest IH]; intros H; constructor.
  - cbn [Values] in H. now destruct (Segment_Value line source).
  - apply IH. cbn [Values] in H.
    destruct (Segment_Value line source); [|discriminate].
    now destruct (Values rest source).
Qed.

Lemma value_write_synced (source : bytes) (line : Segment) (st : RState bytes) :
  isOk (Segment_Value line source) = true ->
  exists st',
    bind (lift (Segment_Value line source)) (fun v => defaultWriter_Write v) st
    = Ok (tt, st') /\ synced st'.
Proof.
  intros H. destruct (Segment_Value line source) as [v|] eqn:Hv; [|discriminate].
  destruct (write_synced v st) as [st' [Hrun [Hs _]]].
  exists st'. split; [|exact Hs].
  eapply bind_run; [exact (lift_Ok _ _ st eq_refl)|]. exact Hrun.
Qed.

Lemma renderDocument_exit_synced (source : bytes) (node : Node)
    (next : option Node) (st : RState bytes) :
  synced st ->
  exists st',
    renderDocument source node next false st = Ok ((WalkContinue, None), st')
    /\ synced st' /\ endsWithNewline (w st').
Proof.
  intros [Hlen [pre Hout]].
  destruct (write_synced [NL] st) as [stw [Hwrite [Hsw Houtw]]].
  unfold renderDocument. cbn [negb].
  destruct (lastWriteBytes (writer st)) as [|c0 b0] eqn:Hb.
  - exists stw. split; [|split; [exact Hsw | now exists (w st)]].
    eapply bind_run; [|reflexivity].
    eapply bind_run; [reflexivity|]. cbv beta iota. rewrite Hlen, Hb.
    cbn [len List.length Z.of_nat Z.eqb].
    eapply bind_run; [reflexivity|]. exact Hwrite.
  - destruct (@exists_last _ (c0 :: b0)) as [b' [c Hlast]]; [discriminate|].
    rewrite Hlast in Hout.
    assert (Hnz : (lastWriteLen (writer st) =? 0) = false).
    { rewrite Hlen. apply Z.eqb_neq. unfold len. cbn [List.length]. lia. }
    assert (Hidx : index (lastWriteBytes (writer st)) (lastWriteLen (writer st) - 1)
                   = Ok c).
    { rewrite Hlen, Hb, Hlast. apply index_last. }
    destruct (byte_eqb c NL) eqn:Hc.
    + exists st. split; [|split].
      * eapply bind_run; [|reflexivity].
        eapply bind_run; [reflexivity|]. cbv beta iota. rewrite Hnz.
        eapply bind_run.
        { eapply bind_run; [exact (lift_Ok _ _ st Hidx)|]. reflexivity. }
        rewrite Hc. reflexivity.
      * split; [rewrite Hb; exact Hlen|]. exists pre. rewrite Hb, Hlast. exact Hout.
      * apply Byte.byte_dec_bl in Hc. subst c.
        exists (pre ++ b'). rewrite Hout. now rewrite app_assoc.
    + exists stw. split; [|split; [exact Hsw | now exists (w st)]].
      eapply bind_run; [|reflexivity].
      eapply bind_run; [reflexivity|]. cbv beta iota. rewrite Hnz.
      eapply bind_run.
      { eapply bind_run; [exact (lift_Ok _ _ st Hidx)|]. reflexivity. }
      rewrite Hc. exact Hwrite.
Qed.

(** On a tree without headings every renderer function keeps the output and
    the last-write state in step. *)
Lemma walker_synced (r : Config) (source : bytes) (d : NodeData) (cs : list Node)
    (next : option Node) (entering : bool) (st : RState bytes) :
  match d with HeadingData _ => false | _ => true end = true ->
  dataReadable r source d = true ->
  synced st ->
  exists st',
    walker r source (mkNode d cs) next entering st = Ok ((WalkContinue, None), st')
    /\ synced st'.
Proof.
  intros Hkind Hread Hs.
  destruct d; try discriminate.
  1-7: open_walker.
  - (* document *)
    destruct entering.
    + exists st. now split.
    + destruct (renderDocument_exit_synced source (mkNode DocumentData cs) next st Hs)
        as [st' [Hrun [Hs' _]]]. eauto.
  - (* paragraph *)
    unfold renderParagraph. destruct entering; cbn [negb].
    + exists st. now split.
    + destruct (separator_synced source (mkNode ParagraphData cs) next st Hs)
        as [st' [Hrun Hs']].
      exists st'. split; [|exact Hs']. eapply bind_run; [exact Hrun|]. reflexivity.
  - (* thematic break *)
    unfold renderThematicBreak. destruct entering.
    + cbn [dataReadable] in Hread. apply andb_prop in Hread as [Hlo Hhi].
      apply Z.leb_le in Hlo. apply Z.ltb_lt in Hhi.
      set (breakLen := if ThematicBreakLength r <? ThematicBreakLengthMinimum
                       then ThematicBreakLengthMinimum else ThematicBreakLength r).
      assert (Hlen : 0 <= breakLen).
      { subst breakLen. unfold ThematicBreakLengthMinimum.
        destruct (Z.ltb_spec (ThematicBreakLength r) 3); lia. }
      destruct (write_synced (repeat (breakGlyph (ThematicBreakStyle r))
                                (Z.to_nat breakLen)) st) as [st' [Hrun [Hs' _]]].
      exists st'. split; [|exact Hs'].
      eapply bind_run; [|reflexivity].
      eapply bind_run; [exact (lift_Ok _ _ st (lookup_break _ (conj Hlo Hhi)))|].
      eapply bind_run; [exact (lift_Ok _ _ st (Repeat_single _ _ Hlen))|].
      exact Hrun.
    + destruct (separator_synced source (mkNode ThematicBreakData cs) next st Hs)
        as [st' [Hrun Hs']].
      exists st'. split; [|exact Hs']. eapply bind_run; [exact Hrun|]. reflexivity.
  - (* code block *)
    unfold renderCodeBlock. cbn [data]. destruct entering.
    + cbn [dataReadable] in Hread. apply Values_Forall in Hread.
      destruct (forLines_synced lines
                  (fun line => bind (defaultWriter_Write (IndentStyle r))
                     (fun _ => bind (lift (Segment_Value line source))
                        (fun v => defaultWriter_Write v)))) with (st := st)
        as [st' [Hrun Hs']]; [|exact Hs|].
      { eapply Forall_impl; [|exact Hread]. intros line Hline st0 _.
        destruct (write_synced (IndentStyle r) st0) as [st1 [Hindent _]].
        destruct (value_write_synced source line st1 Hline) as [st2 [Hval Hs2]].
        exists st2. split; [|exact Hs2].
        eapply bind_run; [exact Hindent|]. exact Hval. }
      exists st'. split; [|exact Hs']. eapply bind_run; [exact Hrun|]. reflexivity.
    + destruct (separator_synced source (mkNode (CodeBlockData lines) cs) next st Hs)
        as [st' [Hrun Hs']].
      exists st'. split; [|exact Hs']. eapply bind_run; [exact Hrun|]. reflexivity.
  - (* fenced code block *)
    unfold renderFencedCodeBlock. cbn [data].
    destruct (write_synced (str "```") st) as [st1 [Hfence [Hs1 _]]].
    destruct entering.
    + cbn [dataReadable] in Hread. apply andb_prop in Hread as [Hlang Hvals].
      apply Values_Forall in Hvals.
      destruct (Language Info source) as [lang|] eqn:HL; [|discriminate].
      assert (Htag : exists st2,
                 match lang with
                 | Some l => defaultWriter_Write l
                 | None => ret tt
                 end st1 = Ok (tt, st2) /\ synced st2).
      { destruct lang as [l|].
        - destruct (write_synced l st1) as [st2 [H2 [Hs2 _]]]. eauto.
        - exists st1. now split. }
      destruct Htag as [st2 [Htag Hs2]].
      destruct (write_synced [NL] st2) as [st3 [Hnl [Hs3 _]]].
      destruct (forLines_synced lines
                  (fun line => bind (lift (Segment_Value line source))
                     (fun v => defaultWriter_Write v))) with (st := st3)
        as [st4 [Hrun Hs4]]; [|exact Hs3|].
      { eapply Forall_impl; [|exact Hvals]. intros line Hline st0 _.
        now apply value_write_synced. }
      exists st4. split; [|exact Hs4].
      eapply bind_run; [exact Hfence|]. cbv beta iota.
      eapply bind_run; [|reflexivity].
      eapply bind_run; [exact (lift_Ok _ _ st1 eq_refl)|].
      eapply bind_run; [exact Htag|].
      eapply bind_run; [exact Hnl|]. exact Hrun.
    + destruct (separator_synced source (mkNode (FencedCodeBlockData Info lines) cs)
                  next st1 Hs1) as [st' [Hrun Hs']].
      exists st'. split; [|exact Hs'].
      eapply bind_run; [exact Hfence|]. cbv beta iota.
      eapply bind_run; [exact Hrun|]. reflexivity.
  - (* HTML block *)
    unfold renderHTMLBlock. cbn [data].
    cbn [dataReadable] in Hread. apply andb_prop in Hread as [Hvals Hclosure].
    destruct entering.
    + apply Values_Forall in Hvals.
      destruct (forLines_synced lines
                  (fun line => bind (lift (Segment_Value line source))
                     (fun v => defaultWriter_Write v))) with (st := st)
        as [st' [Hrun Hs']]; [|exact Hs|].
      { eapply Forall_impl; [|exact Hvals]. intros line Hline st0 _.
        now apply value_write_synced. }
      exists st'. split; [|exact Hs']. eapply bind_run; [exact Hrun|]. reflexivity.
    + assert (Hclose : exists st1,
                 (if HasClosure ClosureLine
                  then bind (lift (Segment_Value ClosureLine source))
                         (fun v => defaultWriter_Write v)
                  else ret tt) st = Ok (tt, st1) /\ synced st1).
      { destruct (HasClosure ClosureLine); cbn [negb orb] in Hclosure.
        - now apply value_write_synced.
        - exists st. now split. }
      destruct Hclose as [st1 [Hclose Hs1]].
      destruct (separator_synced source (mkNode (HTMLBlockData lines ClosureLine) cs)
                  next st1 Hs1) as [st' [Hrun Hs']].
      exists st'. split; [|exact Hs'].
      eapply bind_run; [|reflexivity].
      eapply bind_run; [exact Hclose|]. exact Hrun.
  - (* text *)
    unfold renderText. cbn [data]. cbn [dataReadable] in Hread.
    destruct entering.
    + destruct (Segment_Value seg0 source) as [v|] eqn:Hv; [|discriminate].
      destruct (write_synced v st) as [st1 [Hval [Hs1 _]]].
      assert (Hbreak : exists st2,
                 (if softLineBreak then defaultWriter_Write [NL] else ret tt) st1
                 = Ok (tt, st2) /\ synced st2).
      { destruct softLineBreak.
        - destruct (write_synced [NL] st1) as [st2 [H2 [Hs2 _]]]. eauto.
        - exists st1. now split. }
      destruct Hbreak as [st2 [Hbreak Hs2]].
      exists st2. split; [|exact Hs2].
      eapply bind_run; [|reflexivity].
      eapply bind_run; [exact (lift_Ok _ _ st eq_refl)|].
      eapply bind_run; [exact Hval|]. exact Hbreak.
    + exists st. now split.
  - (* a node without a renderer function *)
    rewrite walker_other. cbn [dataReadable] in Hread. rewrite Hread.
    exists st. now split.
Qed.

Lemma walkHelper_synced (r : Config) (source : bytes) (n : Node) :
  noHeading n = true ->
  readable r source n = true ->
  forall (next : option Node) (st : RState bytes),
    synced st ->
    exists st',
      walkHelper r source n next st = Ok ((WalkContinue, None), st') /\ synced st'.
Proof.
  induction n as [d cs IH] using Node_ind. intros Hplain Hread next st Hs.
  cbn [noHeading readable] in Hplain, Hread.
  apply andb_prop in Hplain as [Hkind Hkids].
  apply andb_prop in Hread as [Hdata Hreads].
  destruct (walker_synced r source d cs next true st Hkind Hdata Hs)
    as [st1 [Henter Hs1]].
  assert (Hloop : exists st2,
             walkChildren r source cs st1 = Ok (None, st2) /\ synced st2).
  { clear Henter. revert st1 Hs1.
    induction IH as [|c rest Hc _ IHrest]; intros st1 Hs1.
    - exists st1. now split.
    - cbn [forallb] in Hkids, Hreads.
      apply andb_prop in Hkids as [Hc1 Hrest1].
      apply andb_prop in Hreads as [Hc2 Hrest2].
      destruct (Hc Hc1 Hc2 (hd_error rest) st1 Hs1) as [stc [Hwalk Hsc]].
      destruct (IHrest Hrest1 Hrest2 stc Hsc) as [st2 [Hrun Hs2]].
      exists st2. split; [|exact Hs2].
      rewrite walkChildren_cons. eapply bind_run; [exact Hwalk|]. exact Hrun. }
  destruct Hloop as [st2 [Hloop Hs2]].
  destruct (walker_synced r source d cs next false st2 Hkind Hdata Hs2)
    as [st3 [Hexit Hs3]].
  exists st3. split; [|exact Hs3].
  rewrite walkHelper_unfold.
  eapply bind_run; [exact Henter|]. cbn [stops fst snd isSome WalkStatus_eqb orb negb].
  eapply bind_run; [exact Hloop|]. cbv beta iota.
  eapply bind_run; [exact Hexit|]. reflexivity.
Qed.

Lemma walkChildren_synced (r : Config) (source : bytes) (cs : list Node) :
  forallb noHeading cs = true ->
  forallb (readable r source) cs = true ->
  forall st : RState bytes,
    synced st ->
    exists st', walkChildren r source cs st = Ok (None, st') /\ synced st'.
Proof.
  induction cs as [|c rest IH]; intros Hplain Hread st Hs.
  - exists st. now split.
  - cbn [forallb] in Hplain, Hread.
    apply andb_prop in Hplain as [Hc1 Hrest1].
    apply andb_prop in Hread as [Hc2 Hrest2].
    destruct (walkHelper_synced r source c Hc1 Hc2 (hd_error rest) st Hs)
      as [stc [Hwalk Hsc]].
    destruct (IH Hrest1 Hrest2 stc Hsc) as [st2 [Hrun Hs2]].
    exists st2. split; [|exact Hs2].
    rewrite walkChildren_cons. eapply bind_run; [exact Hwalk|]. exact Hrun.
Qed.

(** Counterexample to C2 as stated, both ways.  A paragraph followed by an
    empty heading renders without any final newline: the hash is written
    past the Writer, whose last write is still the separator.  An HTML block
    whose last line is blank renders with two final newlines: they are in
    the source and are written as they are. *)
Lemma trailing_newline_counterexample :
  output (Render defaultConfig (str "A") paragraphThenEmptyHeading (fresh []))
  = Some (str "A" ++ [NL; NL] ++ str "#")
  /\ option_map trailingNewlines
       (output (Render defaultConfig (str "A") paragraphThenEmptyHeading (fresh [])))
     = Some 0%nat
  /\ output (Render defaultConfig preSource openPreBlock (fresh []))
     = Some (str "<pre>" ++ [NL; NL])
  /\ option_map trailingNewlines
       (output (Render defaultConfig preSource openPreBlock (fresh [])))
     = Some 2%nat.
Proof. repeat split. Qed.

(** C2, as the code has it, for output written to an in-memory buffer.  The
    document renderer writes nothing on entry.  On exit it writes one newline
    when the length of the last Writer write is 0, or when the byte at that
    length less one of the last write is not a newline, and nothing
    otherwise.  When the tree holds no heading and no node whose kind lies
    past the table of functions, its segments lie within the source, and the
    last write recorded at the start is the tail of the output (as for a
    fresh renderer), the render returns and its output ends in a newline. *)
Theorem document_trailing_newline (r : Config) (source : bytes) (cs : list Node)
    (next : option Node) (st : RState bytes) :
  renderDocument source (mkNode DocumentData cs) next true st
  = Ok ((WalkContinue, None), st)
  /\ (lastWriteLen (writer st) = 0 ->
      renderDocument source (mkNode DocumentData cs) next false st
      = Ok ((WalkContinue, None),
            mkRState (w st ++ [NL]) (mkDefaultWriter [NL] 1)))
  /\ (forall c,
        lastWriteLen (writer st) <> 0 ->
        index (lastWriteBytes (writer st)) (lastWriteLen (writer st) - 1) = Ok c ->
        renderDocument source (mkNode DocumentData cs) next false st
        = Ok ((WalkContinue, None),
              if byte_eqb c NL then st
              else mkRState (w st ++ [NL]) (mkDefaultWriter [NL] 1)))
  /\ (forallb noHeading cs = true ->
      forallb (readable r source) cs = true ->
      synced st ->
      exists e st',
        Render r source (mkNode DocumentData cs) st = Ok (e, st')
        /\ endsWithNewline (w st')).
Proof.
  split; [reflexivity|]. split; [|split].
  - intros Hzero. unfold renderDocument. cbn [negb].
    eapply bind_run; [|reflexivity].
    eapply bind_run; [reflexivity|]. cbv beta iota. rewrite Hzero. reflexivity.
  - intros c Hnz Hidx. unfold renderDocument. cbn [negb].
    apply Z.eqb_neq in Hnz.
    eapply bind_run; [|reflexivity].
    eapply bind_run; [reflexivity|]. cbv beta iota. rewrite Hnz.
    eapply bind_run.
    { eapply bind_run; [exact (lift_Ok _ _ st Hidx)|]. reflexivity. }
    destruct (byte_eqb c NL); reflexivity.
  - intros Hplain Hread Hs.
    destruct (walkChildren_synced r source cs Hplain Hread st Hs)
      as [st1 [Hloop Hs1]].
    destruct (renderDocument_exit_synced source (mkNode DocumentData cs) None st1 Hs1)
      as [st2 [Hexit [_ Hends]]].
    exists None, (mkRState (w st2) (writer st2)). split; [|exact Hends].
    unfold Render. eapply bind_run.
    + rewrite walkHelper_unfold.
      eapply bind_run; [reflexivity|].
      cbn [stops fst snd isSome WalkStatus_eqb orb negb].
      eapply bind_run; [exact Hloop|]. cbv beta iota.
      eapply bind_run; [exact Hexit|]. reflexivity.
    + reflexivity.
Qed.

Lemma document_trailing_newline_witness :
  forallb noHeading [mkNode ParagraphData [text 0 1]; mkNode ParagraphData [text 1 2]]
  = true
  /\ forallb (readable defaultConfig (str "AB"))
       [mkNode ParagraphData [text 0 1]; mkNode ParagraphData [text 1 2]] = true
  /\ synced (fresh [])
  /\ exists e st',
       Render defaultConfig (str "AB") twoParagraphs (fresh []) = Ok (e, st')
       /\ endsWithNewline (w st').
Proof.
  assert (Hfresh : synced (fresh [])).
  { split; [reflexivity|]. now exists []. }
  split; [reflexivity|]. split; [reflexivity|]. split; [exact Hfresh|].
  exact (proj2 (proj2 (proj2 (document_trailing_newline defaultConfig (str "AB")
           [mkNode ParagraphData [text 0 1]; mkNode ParagraphData [text 1 2]]
           None (fresh []))))
           eq_refl eq_refl Hfresh).
Defined.

(** ** The scenarios of the specification, rendered whole *)

Example scenario_level3_heading :
  output (Render defaultConfig (str "Sub") subDocument (fresh []))
  = Some (str "### Sub" ++ [NL]).
Proof. reflexivity. Qed.

Example scenario_fenced_code_block :
  output (Render defaultConfig fenceSource fenceDocument (fresh []))
  = Some (str "```go" ++ [NL] ++ str "fmt.Println()" ++ [NL] ++ str "```" ++ [NL]).
Proof. reflexivity. Qed.

Example scenario_surround_heading :
  output (Render (mkConfig HeadingStyleATXSurround 0 3 (str "    ")) (str "Sub")
            subDocument (fresh []))
  = Some (str "### Sub ###" ++ [NL]).
Proof. reflexivity. Qed.

(** * Further properties of the renderer functions *)

(** ** Text *)

(** X1: a text node written to an in-memory buffer, its segment lying within
    the source.  On entry the text is appended as it is, then a newline
    exactly when the node ends in a soft line break; the exit phase changes
    nothing, whether or not the node has a next sibling. *)
Theorem renderText_output (source : bytes) (seg0 : Segment) (soft : bool)
    (cs : list Node) (next : option Node) (st : RState bytes) (v : bytes) :
  Segment_Value seg0 source = Ok v ->
  (exists st',
     renderText source (mkNode (TextData seg0 soft) cs) next true st
     = Ok ((WalkContinue, None), st')
     /\ w st' = w st ++ v ++ (if soft then [NL] else [])
     /\ lastWriteBytes (writer st') = (if soft then [NL] else v))
  /\ renderText source (mkNode (TextData seg0 soft) cs) next false st
     = Ok ((WalkContinue, None), st).
Proof.
  intros Hv. split; [|reflexivity].
  unfold renderText. cbn [data].
  destruct soft; eexists; (split; [|split]).
  - eapply bind_run; [|reflexivity].
    eapply bind_run; [exact (lift_Ok _ _ st Hv)|].
    eapply bind_run; reflexivity.
  - cbn. now rewrite <- app_assoc.
  - reflexivity.
  - eapply bind_run; [|reflexivity].
    eapply bind_run; [exact (lift_Ok _ _ st Hv)|].
    eapply bind_run; reflexivity.
  - cbn. now rewrite app_nil_r.
  - reflexivity.
Qed.

Lemma renderText_output_witness :
  Segment_Value (seg 0 5) (str "Title") = Ok (str "Title")
  /\ exists st',
       renderText (str "Title") (mkNode (TextData (seg 0 5) true) []) None true
         (fresh [])
       = Ok ((WalkContinue, None), st')
       /\ w st' = str "Title" ++ [NL]
       /\ lastWriteBytes (writer st') = [NL].
Proof.
  split; [reflexivity|].
  exact (proj1 (renderText_output (str "Title") (seg 0 5) true [] None (fresh [])
                  (str "Title") eq_refl)).
Defined.

(** ** Indented code blocks *)

Lemma forLines_indented (indent source : bytes) (lines : list Segment)
    (vs : list bytes) (st : RState bytes) :
  Values lines source = Ok vs ->
  exists st',
    forLines lines (fun line =>
      bind (defaultWriter_Write indent) (fun _ =>
        bind (lift (Segment_Value line source)) (fun v => defaultWriter_Write v))) st
    = Ok (tt, st')
    /\ w st' = w st ++ indented indent vs.
Proof.
  revert vs st. induction lines as [|line rest IH]; intros vs st Hvs.
  - injection Hvs as <-. exists st. split; [reflexivity|].
    unfold indented. simpl. now rewrite app_nil_r.
  - simpl in Hvs.
    destruct (Segment_Value line source) as [v|] eqn:Hv; [|discriminate].
    destruct (Values rest source) as [vs'|] eqn:Hrest; [|discriminate].
    injection Hvs as <-.
    destruct (IH vs' (mkRState ((w st ++ indent) ++ v) (mkDefaultWriter v (len v)))
                eq_refl) as [st' [Hrun Hout]].
    exists st'. split.
    + cbn [forLines]. eapply bind_run; [|exact Hrun].
      eapply bind_run; [reflexivity|].
      eapply bind_run; [exact (lift_Ok _ _ _ Hv)|]. reflexivity.
    + rewrite Hout. cbn [w]. unfold indented. cbn [map List.concat].
      now rewrite <- !app_assoc.
Qed.

(** X2: an indented code block written to an in-memory buffer, its lines
    lying within the source.  On entry every line is appended with the
    configured indent in front of it, in order, so a block without lines
    appends nothing; on exit only the block separator is appended. *)
Theorem renderCodeBlock_output (r : Config) (source : bytes) (lines : list Segment)
    (cs : list Node) (next : option Node) (st : RState bytes) (vs : list bytes) :
  Values lines source = Ok vs ->
  (exists st',
     renderCodeBlock r source (mkNode (CodeBlockData lines) cs) next true st
     = Ok ((WalkContinue, None), st')
     /\ w st' = w st ++ indented (IndentStyle r) vs)
  /\ (exists st',
        renderCodeBlock r source (mkNode (CodeBlockData lines) cs) next false st
        = Ok ((WalkContinue, None), st')
        /\ w st' = w st ++ separator next)
  /\ (lines = [] ->
      renderCodeBlock r source (mkNode (CodeBlockData lines) cs) next true st
      = Ok ((WalkContinue, None), st)).
Proof.
  intros Hvs. unfold renderCodeBlock. cbn [data]. split; [|split].
  - destruct (forLines_indented (IndentStyle r) source lines vs st Hvs)
      as [st' [Hrun Hout]].
    exists st'. split; [|exact Hout].
    eapply bind_run; [exact Hrun|]. reflexivity.
  - unfold separator, renderBlockSeparator.
    destruct (isSome next); eexists; (split; [reflexivity|]); cbn;
      rewrite ?app_nil_r; reflexivity.
  - intros ->. reflexivity.
Qed.

Lemma renderCodeBlock_output_witness :
  Values [seg 0 2; seg 2 4] (str "a" ++ [NL] ++ str "b" ++ [NL])
  = Ok [str "a" ++ [NL]; str "b" ++ [NL]]
  /\ exists st',
       renderCodeBlock defaultConfig (str "a" ++ [NL] ++ str "b" ++ [NL])
         (mkNode (CodeBlockData [seg 0 2; seg 2 4]) []) None true (fresh [])
       = Ok ((WalkContinue, None), st')
       /\ w st' = str "    a" ++ [NL] ++ str "    b" ++ [NL].
Proof.
  split; [reflexivity|].
  exact (proj1 (renderCodeBlock_output defaultConfig (str "a" ++ [NL] ++ str "b" ++ [NL])
                  [seg 0 2; seg 2 4] [] None (fresh [])
                  [str "a" ++ [NL]; str "b" ++ [NL]] eq_refl)).
Defined.

(** ** HTML blocks *)

(** X3: an HTML block written to an in-memory buffer, its segments lying
    within the source.  On entry its lines are appended as they are.  On exit
    the closure line is appended exactly when its start offset is not
    negative, and then the block separator. *)
Theorem renderHTMLBlock_output (source : bytes) (lines : list Segment)
    (ClosureLine : Segment) (cs : list Node) (next : option Node)
    (st : RState bytes) (vs : list bytes) (closure : bytes) :
  Values lines source = Ok vs ->
  (if 0 <=? Start ClosureLine then Segment_Value ClosureLine source else Ok [])
  = Ok closure ->
  (exists st',
     renderHTMLBlock source (mkNode (HTMLBlockData lines ClosureLine) cs) next true st
     = Ok ((WalkContinue, None), st')
     /\ w st' = w st ++ List.concat vs)
  /\ (exists st',
        renderHTMLBlock source (mkNode (HTMLBlockData lines ClosureLine) cs) next false st
        = Ok ((WalkContinue, None), st')
        /\ w st' = w st ++ closure ++ separator next).
Proof.
  intros Hvs Hclosure. unfold renderHTMLBlock. cbn [data]. split.
  - destruct (forLines_verbatim source lines vs st Hvs) as [st' [Hrun Hout]].
    exists st'. split; [|exact Hout].
    eapply bind_run; [exact Hrun|]. reflexivity.
  - unfold HasClosure, separator, renderBlockSeparator.
    destruct (0 <=? Start ClosureLine).
    + destruct (isSome next); eexists; (split;
        [eapply bind_run; [|reflexivity];
         eapply bind_run;
           [eapply bind_run; [exact (lift_Ok _ _ st Hclosure)|reflexivity]
           |reflexivity]|]); cbn; rewrite <- ?app_assoc, ?app_nil_r; reflexivity.
    + injection Hclosure as <-.
      destruct (isSome next); eexists; (split; [reflexivity|]); cbn;
        rewrite ?app_nil_r; reflexivity.
Qed.

Lemma renderHTMLBlock_output_witness :
  Values [seg 0 6] (str "<pre>" ++ [NL] ++ str "</pre>") = Ok [str "<pre>" ++ [NL]]
  /\ (if 0 <=? Start (seg 6 12)
      then Segment_Value (seg 6 12) (str "<pre>" ++ [NL] ++ str "</pre>")
      else Ok []) = Ok (str "</pre>")
  /\ exists st',
       renderHTMLBlock (str "<pre>" ++ [NL] ++ str "</pre>")
         (mkNode (HTMLBlockData [seg 0 6] (seg 6 12)) []) None false
         (mkRState (str "<pre>" ++ [NL]) (mkDefaultWriter (str "<pre>" ++ [NL]) 6))
       = Ok ((WalkContinue, None), st')
       /\ w st' = str "<pre>" ++ [NL] ++ str "</pre>".
Proof.
  split; [reflexivity|]. split; [reflexivity|].
  destruct (proj2 (renderHTMLBlock_output (str "<pre>" ++ [NL] ++ str "</pre>")
                     [seg 0 6] (seg 6 12) [] None
                     (mkRState (str "<pre>" ++ [NL])
                        (mkDefaultWriter (str "<pre>" ++ [NL]) 6))
                     [str "<pre>" ++ [NL]] (str "</pre>") eq_refl eq_refl))
    as [st' [Hrun Hout]].
  exists st'. split; [exact Hrun|]. exact Hout.
Defined.

(** ** Nodes without a renderer function *)

(** X4: a node without a renderer function, on any sink.  When its kind lies
    within the table of functions (text block, blockquote, list, list item)
    it writes nothing of its own: walking it is walking its children, and no
    separator follows it even when it has a next sibling.  When its kind lies
    past the table (string, code span, emphasis, link, image, auto link, raw
    HTML, and every extension's node) the walk panics on the lookup as it
    enters the node, before the node's children are visited. *)
Theorem unregistered_kind_transparent {W} {BW : BufWriter W} (r : Config)
    (source : bytes) (o : OtherNode) (cs : list Node) (next : option Node)
    (st : RState W) :
  (In o [TextBlockNode; BlockquoteNode; ListNode; ListItemNode] ->
   walkHelper r source (mkNode (OtherData o) cs) next st
   = match walkChildren r source cs st with
     | Ok (_, st') => Ok ((WalkContinue, None), st')
     | Panic p => Panic p
     end)
  /\ (~ In o [TextBlockNode; BlockquoteNode; ListNode; ListItemNode] ->
      walkHelper r source (mkNode (OtherData o) cs) next st = Panic IndexOutOfRange).
Proof.
  split; intros Hin.
  - assert (Htable : (kindIndex (OtherNode_Kind o) <=? maxKind) = true).
    { cbn [In] in Hin. destruct Hin as [<-|[<-|[<-|[<-|[]]]]]; reflexivity. }
    rewrite walkHelper_unfold.
    erewrite bind_Ok by (rewrite walker_other, Htable; reflexivity).
    cbn [stops fst snd isSome WalkStatus_eqb orb negb].
    destruct (walkChildren r source cs st) as [[stopped st1]|p] eqn:Hkids.
    + rewrite (bind_Ok _ _ _ _ _ Hkids).
      apply walkChildren_result in Hkids as ->.
      erewrite bind_Ok by (rewrite walker_other, Htable; reflexivity).
      reflexivity.
    + now rewrite (bind_Panic _ _ _ _ Hkids).
  - assert (Htable : (kindIndex (OtherNode_Kind o) <=? maxKind) = false).
    { destruct o; try reflexivity;
        try (exfalso; apply Hin; cbn [In];
             repeat (first [left; reflexivity | right]); fail).
      apply Z.leb_gt. rewrite maxKind_KindText.
      cbn [OtherNode_Kind kindIndex]. lia. }
    rewrite walkHelper_unfold.
    apply bind_Panic. now rewrite walker_other, Htable.
Qed.

Lemma unregistered_kind_transparent_witness :
  In BlockquoteNode [TextBlockNode; BlockquoteNode; ListNode; ListItemNode]
  /\ walkHelper defaultConfig (str "AB")
       (mkNode (OtherData BlockquoteNode) [mkNode ParagraphData [text 0 1]])
       (Some (mkNode ParagraphData [text 1 2])) (fresh [])
     = Ok ((WalkContinue, None), mkRState (str "A") (mkDefaultWriter (str "A") 1)).
Proof.
  split; [right; left; reflexivity|].
  exact (proj1 (unregistered_kind_transparent defaultConfig (str "AB") BlockquoteNode
                  [mkNode ParagraphData [text 0 1]]
                  (Some (mkNode ParagraphData [text 1 2])) (fresh []))
           (or_intror (or_introl eq_refl))).
Defined.

(** ** The thematic break glyph table *)

(** X5: the entry phase of a thematic break returns exactly when the
    configured style index is 0, 1 or 2; with any other index it panics on
    the glyph lookup before anything is written.  The exit phase returns
    with every index. *)
Theorem renderThematicBreak_style_bounds {W} {BW : BufWriter W} (r : Config)
    (source : bytes) (node : Node) (next : option Node) (st : RState W) :
  (0 <= ThematicBreakStyle r < 3 ->
   exists st', renderThematicBreak r source node next true st
               = Ok ((WalkContinue, None), st'))
  /\ (~ 0 <= ThematicBreakStyle r < 3 ->
      renderThematicBreak r source node next true st = Panic IndexOutOfRange)
  /\ exists st', renderThematicBreak r source node next false st
                 = Ok ((WalkContinue, None), st').
Proof.
  unfold renderThematicBreak. split; [|split].
  - intros Hstyle.
    set (breakLen := if ThematicBreakLength r <? ThematicBreakLengthMinimum
                     then ThematicBreakLengthMinimum else ThematicBreakLength r).
    assert (Hlen : 0 <= breakLen).
    { subst breakLen. unfold ThematicBreakLengthMinimum.
      destruct (Z.ltb_spec (ThematicBreakLength r) 3); lia. }
    destruct (defaultWriter_Write_total
                (repeat (breakGlyph (ThematicBreakStyle r)) (Z.to_nat breakLen)) st)
      as [w1 [k Hwrite]].
    eexists. eapply bind_run; [|reflexivity].
    eapply bind_run; [exact (lift_Ok _ _ st (lookup_break _ Hstyle))|].
    eapply bind_run; [exact (lift_Ok _ _ st (Repeat_single _ _ Hlen))|].
    exact Hwrite.
  - intros Hstyle.
    assert (Hlookup : lookup [str "-"; str "*"; str "_"] (ThematicBreakStyle r)
                      = Panic IndexOutOfRange).
    { unfold lookup. cbn [List.length Z.of_nat Pos.of_succ_nat Pos.succ].
      destruct (Z.leb_spec 0 (ThematicBreakStyle r));
        destruct (Z.ltb_spec (ThematicBreakStyle r) 3); cbn [andb];
        try reflexivity. lia. }
    unfold bind, lift. rewrite Hlookup. reflexivity.
  - destruct (renderBlockSeparator_total source node next st) as [st' Hsep].
    exists st'. eapply bind_run; [exact Hsep|]. reflexivity.
Qed.

(** ** The exit of a document, run again *)

(** X6: on an in-memory buffer the exit phase of a document is idempotent.
    Once it has returned, the last write recorded ends in a newline, so a
    second exit changes nothing, and rendering an empty document next with
    the same renderer, into any buffer, writes no byte at all. *)
Theorem renderDocument_exit_idempotent (r : Config) (source : bytes)
    (node : Node) (next : option Node) (st st1 : RState bytes)
    (res : HandlerResult) :
  renderDocument source node next false st = Ok (res, st1) ->
  lastWriteLen (writer st1) <> 0
  /\ index (lastWriteBytes (writer st1)) (lastWriteLen (writer st1) - 1) = Ok NL
  /\ (forall node' next',
        renderDocument source node' next' false st1 = Ok (res, st1))
  /\ (forall (source' buf : bytes),
        Render r source' (mkNode DocumentData []) (mkRState buf (writer st1))
        = Ok (None, mkRState buf (writer st1))).
Proof.
  intros Hexit.
  assert (Hpost : res = (WalkContinue, None)
                  /\ lastWriteLen (writer st1) <> 0
                  /\ index (lastWriteBytes (writer st1)) (lastWriteLen (writer st1) - 1)
                     = Ok NL).
  { unfold renderDocument in Hexit. cbn [negb] in Hexit.
    apply bind_inv in Hexit as [u [st2 [Hbody Hret]]].
    apply ret_inv in Hret as [-> ->]. split; [reflexivity|].
    apply bind_inv in Hbody as [bl [st3 [Hlast Hbody]]].
    unfold LastWriteBytes in Hlast. injection Hlast as <- <-.
    cbv beta iota in Hbody.
    apply bind_inv in Hbody as [missing [st4 [Hmissing Hbody]]].
    destruct (lastWriteLen (writer st) =? 0) eqn:Hzero.
    - apply ret_inv in Hmissing as [-> ->].
      cbn in Hbody. injection Hbody as _ <-. cbn. split; [discriminate | reflexivity].
    - apply bind_inv in Hmissing as [c [st5 [Hidx Hret]]].
      apply lift_inv in Hidx as [Hidx ->]. apply ret_inv in Hret as [-> ->].
      destruct (byte_eqb c NL) eqn:Hc; cbn [negb] in Hbody.
      + apply ret_inv in Hbody as [_ ->].
        apply Byte.byte_dec_bl in Hc. subst c.
        split; [now apply Z.eqb_neq | exact Hidx].
      + cbn in Hbody. injection Hbody as _ <-. cbn.
        split; [discriminate | reflexivity]. }
  destruct Hpost as [-> [Hnz Hidx]].
  assert (Hagain : forall (source' buf : bytes) node' next',
            renderDocument source' node' next' false (mkRState buf (writer st1))
            = Ok ((WalkContinue, None), mkRState buf (writer st1))).
  { intros source' buf node' next'. unfold renderDocument. cbn [negb].
    apply Z.eqb_neq in Hnz.
    eapply bind_run; [|reflexivity].
    eapply bind_run; [reflexivity|]. cbv beta iota. cbn [writer]. rewrite Hnz.
    eapply bind_run.
    { eapply bind_run; [exact (lift_Ok _ _ _ Hidx)|]. reflexivity. }
    reflexivity. }
  split; [exact Hnz|]. split; [exact Hidx|]. split.
  - intros node' next'. specialize (Hagain source (w st1) node' next').
    destruct st1 as [buf1 wr1]. exact Hagain.
  - intros source' buf. unfold Render.
    eapply bind_run.
    + rewrite walkHelper_unfold.
      eapply bind_run; [reflexivity|].
      cbn [stops fst snd isSome WalkStatus_eqb orb negb].
      eapply bind_run; [reflexivity|]. cbv beta iota.
      eapply bind_run; [exact (Hagain source' buf _ _)|]. reflexivity.
    + reflexivity.
Qed.

Lemma renderDocument_exit_idempotent_witness :
  renderDocument (str "A") (mkNode DocumentData []) None false
    (mkRState (str "A") (mkDefaultWriter (str "A") 1))
  = Ok ((WalkContinue, None), mkRState (str "A" ++ [NL]) (mkDefaultWriter [NL] 1))
  /\ Render defaultConfig [] (mkNode DocumentData []) (mkRState [] (mkDefaultWriter [NL] 1))
     = Ok (None, mkRState [] (mkDefaultWriter [NL] 1)).
Proof.
  split; [reflexivity|].
  exact (proj2 (proj2 (proj2 (renderDocument_exit_idempotent defaultConfig (str "A")
           (mkNode DocumentData []) None
           (mkRState (str "A") (mkDefaultWriter (str "A") 1))
           (mkRState (str "A" ++ [NL]) (mkDefaultWriter [NL] 1))
           (WalkContinue, None) eq_refl))) [] []).
Defined.

(** ** A document that ends in an empty heading *)

Lemma hashes_last (level : Z) :
  1 <= level -> exists front, hashes level = front ++ [x23].
Proof.
  intros H. unfold hashes.
  destruct (Z.to_nat level) as [|n] eqn:Hn; [lia|].
  exists (repeat x23 n). clear. induction n as [|n IH]; [reflexivity|].
  cbn [repeat app] in *. now rewrite <- IH.
Qed.

Lemma trailingNewlines_hash (front : bytes) : trailingNewlines (front ++ [x23]) = O.
Proof. unfold trailingNewlines. now rewrite rev_app_distr. Qed.

(** Walking a heading without children, of level 1 or more, ends the output
    in a hash and leaves the last-write state alone. *)
Lemma walkHelper_emptyHeading (r : Config) (source : bytes) (h : Heading)
    (st st' : RState bytes) (res : HandlerResult) :
  1 <= Level h ->
  walkHelper r source (emptyHeading h) None st = Ok (res, st') ->
  writer st' = writer st /\ exists front, w st' = front ++ [x23].
Proof.
  intros Hlevel. unfold emptyHeading. rewrite walkHelper_unfold.
  open_walker.
  rewrite !renderHeading_form. cbn [HasChildren children resolveHeadingForm negb].
  destruct (hashes_last _ Hlevel) as [front Hfront].
  assert (Hrep : Repeat (str "#") (Level h) = Ok (hashes (Level h)))
    by (apply Repeat_hashes; lia).
  assert (Henter : renderATXHeading r source (mkNode (HeadingData h) []) None h true st
                   = Ok ((WalkContinue, None),
                         mkRState (w st ++ hashes (Level h)) (writer st))).
  { unfold renderATXHeading. eapply bind_run; [|reflexivity].
    eapply bind_run; [exact (lift_Ok _ _ st Hrep)|].
    eapply bind_run; reflexivity. }
  intros H. rewrite (bind_Ok _ _ _ _ _ Henter) in H.
  cbn [stops fst snd isSome WalkStatus_eqb orb negb] in H.
  erewrite bind_Ok in H by reflexivity. cbv beta iota in H.
  apply bind_inv in H as [res' [st2 [Hexit Hfin]]].
  assert (Hsame : st' = st2)
    by (destruct (stops res'); now apply ret_inv in Hfin as [_ ->]).
  subst st'. clear Hfin.
  unfold renderATXHeading in Hexit.
  apply bind_inv in Hexit as [u [st3 [Hexit Hret]]]. apply ret_inv in Hret as [_ ->].
  apply bind_inv in Hexit as [u1 [st4 [Hclose Hsep]]].
  apply ret_inv in Hsep as [_ ->].
  destruct (HeadingStyle_eqb (HeadingStyle r) HeadingStyleATXSurround).
  - apply bind_inv in Hclose as [chars [st5 [Hchars Hclose]]].
    apply lift_inv in Hchars as [Hchars ->].
    rewrite Hrep in Hchars. injection Hchars as <-.
    cbn in Hclose. injection Hclose as _ <-. cbn [w writer].
    split; [reflexivity|].
    exists ((w st ++ hashes (Level h)) ++ SP :: front).
    rewrite Hfront. cbn. now rewrite <- !app_assoc.
  - apply ret_inv in Hclose as [_ ->]. cbn [w writer].
    split; [reflexivity|].
    exists (w st ++ front). rewrite Hfront. now rewrite app_assoc.
Qed.

Lemma walkChildren_ends_in_emptyHeading (r : Config) (source : bytes)
    (a : Node) (h : Heading) (pre : list Node) :
  isBlock a = true ->
  1 <= Level h ->
  forall (st st' : RState bytes) (stopped : option HandlerResult),
    walkChildren r source (pre ++ [a; emptyHeading h]) st = Ok (stopped, st') ->
    writer st' = mkDefaultWriter [NL; NL] 2
    /\ exists front, w st' = front ++ [x23].
Proof.
  intros Hblock Hlevel. induction pre as [|c pre IH]; intros st st' stopped H.
  - cbn [app] in H. rewrite walkChildren_cons in H. cbn [hd_error] in H.
    apply bind_inv in H as [resa [sta [Ha H]]].
    pose proof (walkHelper_result _ _ _ _ _ _ _ Ha) as ->.
    cbn [stops fst snd isSome WalkStatus_eqb orb] in H.
    rewrite (walkHelper_block_next r source a _ st Hblock) in Ha.
    destruct (walkHelper r source a None st) as [[res0 st0]|p]; [|discriminate].
    cbn in Ha. injection Ha as _ <-.
    rewrite walkChildren_cons in H. cbn [hd_error] in H.
    apply bind_inv in H as [resh [sth [Hh H]]].
    apply (walkHelper_emptyHeading r source h _ _ _ Hlevel) in Hh as [Hwr Hout].
    destruct (stops resh); apply ret_inv in H as [_ ->];
      (split; [rewrite Hwr; reflexivity | exact Hout]).
  - cbn [app] in H. rewrite walkChildren_cons in H.
    apply bind_inv in H as [resc [stc [Hc H]]].
    apply walkHelper_result in Hc as ->.
    cbn [stops fst snd isSome WalkStatus_eqb orb] in H.
    exact (IH _ _ _ H).
Qed.

(** X7: a document whose last child is a heading without children, of level
    1 or more, coming right after a block.  Rendered to an in-memory buffer
    its output ends in the heading's hash and has no final newline: the
    hash run goes to the buffer directly, so at the exit of the document the
    last write recorded is still the separator, which ends in a newline. *)
Theorem empty_last_heading_no_final_newline (r : Config) (source : bytes)
    (pre : list Node) (a : Node) (h : Heading) (st st' : RState bytes)
    (e : option error) :
  isBlock a = true ->
  1 <= Level h ->
  Render r source (mkNode DocumentData (pre ++ [a; emptyHeading h])) st = Ok (e, st') ->
  (exists front, w st' = front ++ [x23])
  /\ trailingNewlines (w st') = O.
Proof.
  intros Hblock Hlevel H.
  assert (Hout : exists front, w st' = front ++ [x23]).
  { unfold Render in H. apply bind_inv in H as [res [st1 [Hwalk Hflush]]].
    pose proof (walkHelper_result _ _ _ _ _ _ _ Hwalk) as ->.
    cbn in Hflush. injection Hflush as _ <-. cbn [w].
    rewrite walkHelper_unfold in Hwalk.
    erewrite bind_Ok in Hwalk by reflexivity.
    cbn [stops fst snd isSome WalkStatus_eqb orb negb] in Hwalk.
    apply bind_inv in Hwalk as [stopped [st2 [Hkids Hwalk]]].
    pose proof (walkChildren_result _ _ _ _ _ _ Hkids) as ->.
    apply (walkChildren_ends_in_emptyHeading r source a h pre Hblock Hlevel)
      in Hkids as [Hwr [front Hfront]].
    apply bind_inv in Hwalk as [res' [st3 [Hexit Hfin]]].
    assert (Hsame : st1 = st3)
      by (destruct (stops res'); now apply ret_inv in Hfin as [_ ->]).
    subst st3. clear Hfin.
    rewrite walker_in_table in Hexit by (apply registered_in_table; exact I).
    unfold Kind in Hexit. cbn [data RegisterFuncs] in Hexit.
    unfold renderDocument in Hexit. cbn [negb] in Hexit.
    unfold bind, LastWriteBytes, lift, ret in Hexit.
    rewrite Hwr in Hexit. cbn in Hexit. injection Hexit as _ <-.
    now exists front. }
  split; [exact Hout|].
  destruct Hout as [front ->]. apply trailingNewlines_hash.
Qed.

Lemma empty_last_heading_no_final_newline_witness :
  isBlock (mkNode ParagraphData [text 0 1]) = true
  /\ 1 <= 1
  /\ Render defaultConfig (str "A") paragraphThenEmptyHeading (fresh [])
     = Ok (None, mkRState (str "A" ++ [NL; NL] ++ str "#") (mkDefaultWriter [NL; NL] 2))
  /\ trailingNewlines (str "A" ++ [NL; NL] ++ str "#") = O.
Proof.
  split; [reflexivity|]. split; [lia|]. split; [reflexivity|].
  exact (proj2 (empty_last_heading_no_final_newline defaultConfig (str "A") []
                  (mkNode ParagraphData [text 0 1]) (mkHeading 1 [])
                  (fresh [])
                  (mkRState (str "A" ++ [NL; NL] ++ str "#") (mkDefaultWriter [NL; NL] 2))
                  None eq_refl ltac:(simpl; lia) eq_refl)).
Defined.

(** ** Sinks that honour the writer contract *)

Section Lawful.

Context {W : Type} {BW : BufWriter W}.
Hypothesis Hlaw : lawful BW.

Lemma safe_ret {A} (a : A) : safe (ret a).
Proof. intros st Hb. now exists a, st. Qed.

Lemma safe_lift_Ok {A} (a : A) : safe (lift (Ok a)).
Proof. intros st Hb. now exists a, st. Qed.

Lemma safe_bind {A B} (m : M W A) (k : A -> M W B) :
  safe m -> (forall a, safe (k a)) -> safe (bind m k).
Proof.
  intros Hm Hk st Hb.
  destruct (Hm st Hb) as [a [st1 [Hrun Hb1]]].
  destruct (Hk a st1 Hb1) as [b [st2 [Hrun2 Hb2]]].
  exists b, st2. split; [|exact Hb2].
  eapply bind_run; [exact Hrun | exact Hrun2].
Qed.

Lemma safe_Write (p : bytes) : safe (defaultWriter_Write p).
Proof.
  intros st _. unfold defaultWriter_Write.
  pose proof (Hlaw (w st) p) as Hn.
  destruct (Write (w st) p) as [w1 [k e]]. cbn [fst snd] in Hn.
  eexists tt, _. split; [reflexivity|]. exact Hn.
Qed.

Lemma safe_Fprint (p : bytes) : safe (Fprint p).
Proof.
  intros st Hb. unfold Fprint.
  destruct (Write (w st) p) as [w1 [k e]].
  eexists tt, _. split; [reflexivity|]. exact Hb.
Qed.

Lemma safe_separator (source : bytes) (node : Node) (next : option Node) :
  safe (renderBlockSeparator source node next).
Proof.
  unfold renderBlockSeparator. destruct (isSome next);
    [apply safe_Write | apply safe_ret].
Qed.

Lemma safe_forLines (lines : list Segment) (body : Segment -> M W unit) :
  Forall (fun line => safe (body line)) lines -> safe (forLines lines body).
Proof.
  induction 1 as [|line rest Hline _ IH]; cbn [forLines].
  - apply safe_ret.
  - apply safe_bind; [exact Hline | intros _; exact IH].
Qed.

Lemma safe_value_write (source : bytes) (line : Segment) :
  isOk (Segment_Value line source) = true ->
  safe (bind (lift (Segment_Value line source)) (fun v => defaultWriter_Write v)).
Proof.
  intros H. destruct (Segment_Value line source); [|discriminate].
  apply safe_bind; [apply safe_lift_Ok | intros v; apply safe_Write].
Qed.

Lemma index_in_range (b : bytes) (i : Z) :
  0 <= i < len b -> exists c, index b i = Ok c.
Proof.
  intros Hi. unfold index, len in *.
  destruct (Z.leb_spec 0 i); [|lia].
  destruct (Z.ltb_spec i (Z.of_nat (List.length b))); [|lia]. cbn [andb].
  destruct (nth_error b (Z.to_nat i)) as [c|] eqn:Hnth; [now exists c|].
  apply nth_error_None in Hnth. lia.
Qed.

Lemma Repeat_total (s : bytes) (count : Z) :
  0 <= count -> exists out, Repeat s count = Ok out.
Proof.
  intros H. unfold Repeat. destruct (Z.ltb_spec count 0); [lia|]. eauto.
Qed.

Lemma safe_renderDocument (source : bytes) (node : Node) (next : option Node)
    (entering : bool) :
  safe (renderDocument source node next entering).
Proof.
  unfold renderDocument. destruct entering; cbn [negb].
  - apply safe_bind; [apply safe_ret | intros _; apply safe_ret].
  - apply safe_bind; [|intros _; apply safe_ret].
    intros st Hb. unfold bind at 1. unfold LastWriteBytes. cbv beta iota.
    destruct (lastWriteLen (writer st) =? 0) eqn:Hzero.
    + unfold bind, ret. exact (safe_Write [NL] st Hb).
    + apply Z.eqb_neq in Hzero.
      destruct (index_in_range (lastWriteBytes (writer st))
                  (lastWriteLen (writer st) - 1)) as [c Hidx];
        [unfold bounded in Hb; lia|].
      unfold bind, lift, ret. rewrite Hidx.
      destruct (negb (byte_eqb c NL)).
      * exact (safe_Write [NL] st Hb).
      * now exists tt, st.
Qed.

Lemma safe_renderHeading (r : Config) (source : bytes) (h : Heading)
    (cs : list Node) (next : option Node) (entering : bool) :
  0 <= Level h ->
  safe (renderHeading r source (mkNode (HeadingData h) cs) next entering).
Proof.
  intros Hlevel. rewrite renderHeading_form. unfold resolveHeadingForm.
  assert (Hatx : safe (renderATXHeading r source (mkNode (HeadingData h) cs)
                         next h entering)).
  { unfold renderATXHeading. rewrite (Repeat_hashes _ Hlevel).
    apply safe_bind; [|intros _; apply safe_ret].
    destruct entering.
    - apply safe_bind; [apply safe_lift_Ok|]. intros chars.
      apply safe_bind; [apply safe_Fprint|]. intros _.
      destruct (HasChildren _); [apply safe_Fprint | apply safe_ret].
    - apply safe_bind; [|intros _; apply safe_separator].
      destruct (HeadingStyle_eqb _ _); [|apply safe_ret].
      apply safe_bind; [apply safe_lift_Ok | intros chars; apply safe_Fprint]. }
  assert (Hsetext : Level h <= 2 ->
            safe (renderSetextHeading r source (mkNode (HeadingData h) cs)
                    next h entering)).
  { intros Hlow. unfold renderSetextHeading.
    destruct entering; [apply safe_ret|].
    assert (Hglyph : exists glyph, lookup [[]; str "="; str "-"] (Level h) = Ok glyph).
    { assert (Level h = 0 \/ Level h = 1 \/ Level h = 2) as [->|[->| ->]] by lia;
        eexists; reflexivity. }
    destruct Hglyph as [glyph ->].
    apply safe_bind; [apply safe_lift_Ok|]. intros glyph'. cbv zeta.
    destruct (Repeat_total glyph'
                (if HeadingStyle_eqb (HeadingStyle r) HeadingStyleFullWidthSetext
                 then widen (Heading_Lines h) 3 else 3)) as [line ->].
    { destruct (HeadingStyle_eqb _ _); [|lia]. rewrite widen_fold. lia. }
    apply safe_bind; [apply safe_lift_Ok|]. intros line'.
    apply safe_bind; [apply safe_Fprint|]. intros _.
    apply safe_bind; [apply safe_separator | intros _; apply safe_ret]. }
  destruct (negb (HasChildren (mkNode (HeadingData h) cs))); [exact Hatx|].
  destruct (Z.gtb_spec (Level h) 2); [exact Hatx|].
  destruct (Z.of_nat (List.length (Heading_Lines h)) >? 1); [apply Hsetext; lia|].
  destruct (IsSetext (HeadingStyle r)); [apply Hsetext; lia | exact Hatx].
Qed.

Lemma safe_walker (r : Config) (source : bytes) (d : NodeData) (cs : list Node)
    (next : option Node) (entering : bool) :
  dataReadable r source d = true ->
  safe (walker r source (mkNode d cs) next entering).
Proof.
  intros Hread. destruct d; cbn [dataReadable] in Hread.
  1-8: open_walker.
  - apply safe_renderDocument.
  - apply safe_renderHeading. now apply Z.leb_le.
  - unfold renderParagraph. apply safe_bind; [|intros _; apply safe_ret].
    destruct (negb entering); [apply safe_separator | apply safe_ret].
  - unfold renderThematicBreak. apply safe_bind; [|intros _; apply safe_ret].
    destruct entering; [|apply safe_separator].
    apply andb_prop in Hread as [Hlo Hhi].
    apply Z.leb_le in Hlo. apply Z.ltb_lt in Hhi.
    rewrite (lookup_break _ (conj Hlo Hhi)).
    apply safe_bind; [apply safe_lift_Ok|]. intros glyph. cbv zeta.
    destruct (Repeat_total glyph
                (if ThematicBreakLength r <? ThematicBreakLengthMinimum
                 then ThematicBreakLengthMinimum else ThematicBreakLength r))
      as [line ->].
    { unfold ThematicBreakLengthMinimum.
      destruct (Z.ltb_spec (ThematicBreakLength r) 3); lia. }
    apply safe_bind; [apply safe_lift_Ok | intros line'; apply safe_Write].
  - unfold renderCodeBlock. cbn [data].
    apply safe_bind; [|intros _; apply safe_ret].
    destruct entering; [|apply safe_separator].
    apply safe_forLines. apply Values_Forall in Hread.
    eapply Forall_impl; [|exact Hread]. intros line Hline.
    apply safe_bind; [apply safe_Write|]. intros _.
    now apply safe_value_write.
  - unfold renderFencedCodeBlock. cbn [data].
    apply andb_prop in Hread as [Hlang Hvals].
    apply safe_bind; [apply safe_Write|]. intros _.
    apply safe_bind; [|intros _; apply safe_ret].
    destruct entering; [|apply safe_separator].
    destruct (Language Info source) as [lang|]; [|discriminate].
    apply safe_bind; [apply safe_lift_Ok|]. intros lang'.
    apply safe_bind; [destruct lang'; [apply safe_Write | apply safe_ret]|].
    intros _. apply safe_bind; [apply safe_Write|]. intros _.
    apply safe_forLines. apply Values_Forall in Hvals.
    eapply Forall_impl; [|exact Hvals]. intros line Hline.
    now apply safe_value_write.
  - unfold renderHTMLBlock. cbn [data].
    apply andb_prop in Hread as [Hvals Hclosure].
    apply safe_bind; [|intros _; apply safe_ret].
    destruct entering.
    + apply safe_forLines. apply Values_Forall in Hvals.
      eapply Forall_impl; [|exact Hvals]. intros line Hline.
      now apply safe_value_write.
    + apply safe_bind; [|intros _; apply safe_separator].
      destruct (HasClosure ClosureLine); cbn [negb orb] in Hclosure;
        [now apply safe_value_write | apply safe_ret].
  - unfold renderText. cbn [data].
    apply safe_bind; [|intros _; apply safe_ret].
    destruct entering; [|apply safe_ret].
    destruct (Segment_Value seg0 source); [|discriminate].
    apply safe_bind; [apply safe_lift_Ok|]. intros v.
    apply safe_bind; [apply safe_Write|]. intros _.
    destruct softLineBreak; [apply safe_Write | apply safe_ret].
  - intros st Hb. rewrite walker_other, Hread.
    now exists (WalkContinue, None), st.
Qed.

Lemma safe_walkHelper (r : Config) (source : bytes) (n : Node) :
  readable r source n = true ->
  forall next, safe (walkHelper r source n next).
Proof.
  induction n as [d cs IH] using Node_ind. intros Hread next.
  cbn [readable] in Hread. apply andb_prop in Hread as [Hdata Hkids].
  assert (Hloop : safe (walkChildren r source cs)).
  { induction IH as [|c rest Hc _ IHrest].
    - apply safe_ret.
    - cbn [forallb] in Hkids. apply andb_prop in Hkids as [Hc1 Hrest1].
      rewrite walkChildren_cons. apply safe_bind; [now apply Hc|].
      intros res. destruct (stops res); [apply safe_ret | now apply IHrest]. }
  rewrite walkHelper_unfold.
  apply safe_bind; [now apply safe_walker|]. intros res.
  destruct (stops res); [apply safe_ret|].
  apply safe_bind.
  - destruct (negb (WalkStatus_eqb (fst res) WalkSkipChildren));
      [exact Hloop | apply safe_ret].
  - intros [out|]; [apply safe_ret|].
    apply safe_bind; [now apply safe_walker|]. intros res'.
    destruct (stops res'); apply safe_ret.
Qed.

End Lawful.

(** Without the contract the index into the last write can leave its bytes:
    after one write to a sink that reports a byte too many, the exit of the
    document panics. *)
Example renderDocument_overcount_panics :
  Render defaultConfig (str "A") (mkNode DocumentData [text 0 1]) (fresh overcount)
  = Panic IndexOutOfRange.
Proof. reflexivity. Qed.

(** A node whose kind lies past the table of functions makes the render
    panic, here the emphasis of [a *b* c]; such a tree is not [readable]. *)
Example render_emphasis_panics :
  Render defaultConfig (str "a *b* c") emphasisDocument (fresh ([] : bytes))
  = Panic IndexOutOfRange
  /\ readable defaultConfig (str "a *b* c") emphasisDocument = false.
Proof. split; reflexivity. Qed.

(** X9: on any sink that honours the writer contract, failing or not, a
    render never panics when every segment the tree names lies within the
    source, heading levels are not negative, a thematic break finds its
    glyph and no node has a kind past the table of functions (so no string,
    code span, emphasis, link, image, auto link, raw HTML or extension node):
    it returns, and the length recorded for the last write stays within the
    bytes of that write, which is what keeps the index taken at the exit of
    the document in bounds. *)
Theorem render_never_panics {W} {BW : BufWriter W} (r : Config) (source : bytes)
    (n : Node) (st : RState W) :
  lawful BW ->
  readable r source n = true ->
  bounded st ->
  exists e st', Render r source n st = Ok (e, st') /\ bounded st'.
Proof.
  intros Hlaw Hread Hb.
  destruct (safe_walkHelper Hlaw r source n Hread None st Hb)
    as [res [st1 [Hwalk Hb1]]].
  pose proof (walkHelper_result _ _ _ _ _ _ _ Hwalk) as ->.
  exists (snd (Flush (w st1))), (mkRState (fst (Flush (w st1))) (writer st1)).
  split; [|exact Hb1].
  unfold Render. eapply bind_run; [exact Hwalk|]. cbn [snd].
  destruct (Flush (w st1)) as [w' e]. reflexivity.
Qed.

Lemma QuotaWriter_lawful : lawful QuotaWriter.
Proof.
  intros q p. cbn [Write QuotaWriter]. unfold Quota_Write.
  assert (Hlen : 0 <= len p) by (unfold len; lia).
  destruct (failure q); cbn [fst snd]; [lia|].
  destruct (Z.leb_spec (len p) (room q)); cbn [fst snd]; lia.
Qed.

Lemma render_never_panics_witness :
  lawful QuotaWriter
  /\ readable defaultConfig (str "AB") twoParagraphs = true
  /\ bounded (fresh (mkQuota [] 1 0 None))
  /\ exists e st',
       Render defaultConfig (str "AB") twoParagraphs (fresh (mkQuota [] 1 0 None))
       = Ok (e, st') /\ bounded st'.
Proof.
  assert (Hb : bounded (fresh (mkQuota [] 1 0 None))) by (unfold bounded; cbn; lia).
  split; [exact QuotaWriter_lawful|]. split; [reflexivity|]. split; [exact Hb|].
  exact (render_never_panics defaultConfig (str "AB") twoParagraphs
           (fresh (mkQuota [] 1 0 None)) QuotaWriter_lawful eq_refl Hb).
Defined.
